(** * GitDiffer: the Change Presenter (viewer script) and the Change Extractor

    A shallow embedding of the viewer script of GitDiffer and of the
    Extractor contract, with the properties of the specification
    stated over it.

    Conventions of the embedding.
    - A JavaScript string is a Rocq [string]; one character stands for one
      UTF-16 code unit below 256, so that comparison, lower-casing and
      trimming are the ones of the language on that range.
    - A Change Record is a record with the fields of the schema; a field
      that may be [null] or missing is an [option] ([None] stands for both:
      the script only applies [??], [||] and [Boolean] to such fields, which
      do not tell them apart).
    - Functions that write module-level variables or the document are
      computations in a state monad with exceptions: a [throw] keeps the
      writes made before it, as in the language.
    - The markup a render function returns is kept as a tree with one
      constructor per template of the script and one argument per
      interpolation hole, in source order. *)

From Stdlib Require Import String Ascii List ZArith NArith Bool Lia.
From Stdlib Require Import DecimalString Sorted Permutation.
Import ListNotations.

Set Implicit Arguments.

Open Scope string_scope.
Open Scope list_scope.

(* ================================================================== *)
(** * Part I: definitions                                              *)
(* ================================================================== *)

(** ** The fragment of the JavaScript library the script calls *)

Module JS.

(** The line feed and the double quote, as one-unit strings. *)
Definition LF : string := String (ascii_of_nat 10) EmptyString.
Definition DQ : string := String (ascii_of_nat 34) EmptyString.

(** Truthiness of a string: only the empty string is falsy. *)
Definition truthy (s : string) : bool := negb (s =? "").

(** [Array.prototype.join] on an array of strings. *)
Definition join (sep : string) (xs : list string) : string :=
  String.concat sep xs.

(** [String.prototype.includes]: [needle] occurs in [hay]. *)
Fixpoint includes (hay needle : string) : bool :=
  String.prefix needle hay ||
  match hay with
  | EmptyString => false
  | String _ rest => includes rest needle
  end.

(** [String.prototype.toLowerCase], code unit by code unit: the upper-case
    letters below 256 are A-Z, U+00C0-U+00D6 and U+00D8-U+00DE, each 32
    below its lower-case form. *)
Definition lower_unit (c : ascii) : ascii :=
  let n := N_of_ascii c in
  if ((65 <=? n) && (n <=? 90) || (192 <=? n) && (n <=? 214)
      || (216 <=? n) && (n <=? 222))%N
  then ascii_of_N (n + 32) else c.

Fixpoint toLowerCase (s : string) : string :=
  match s with
  | EmptyString => EmptyString
  | String c rest => String (lower_unit c) (toLowerCase rest)
  end.

(** White space and line terminators below 256: TAB, LF, VT, FF, CR,
    SPACE and NO-BREAK SPACE. *)
Definition is_space (c : ascii) : bool :=
  let n := N_of_ascii c in
  ((9 <=? n) && (n <=? 13) || (n =? 32) || (n =? 160))%N.

Fixpoint trimStart (s : string) : string :=
  match s with
  | EmptyString => EmptyString
  | String c rest => if is_space c then trimStart rest else s
  end.

Fixpoint trimEnd (s : string) : string :=
  match s with
  | EmptyString => EmptyString
  | String c rest =>
      let rest' := trimEnd rest in
      if is_space c && (rest' =? "") then EmptyString else String c rest'
  end.

(** [String.prototype.trim]. *)
Definition trim (s : string) : string := trimEnd (trimStart s).

(** [String.prototype.replaceAll] with a string pattern: matches are
    found left to right and do not overlap.  [skip] counts the code units
    of the current match that are still to be dropped.  With the empty
    pattern the replacement goes before every code unit and at the end. *)
Fixpoint replaceAll_from (pat rep : string) (skip : nat) (s : string) : string :=
  match s with
  | EmptyString => if pat =? "" then rep else EmptyString
  | String c rest =>
      match skip with
      | S k => replaceAll_from pat rep k rest
      | O =>
          if String.prefix pat s
          then rep ++ (if pat =? "" then String c (replaceAll_from pat rep 0 rest)
                       else replaceAll_from pat rep (String.length pat - 1) rest)
          else String c (replaceAll_from pat rep 0 rest)
      end
  end.

Definition replaceAll (s pat rep : string) : string :=
  replaceAll_from pat rep 0 s.

(** [Number.prototype.toString] on a safe integer, one strictly between
    [-2^53] and [2^53] (line numbers, indexes): its decimal digits.  Past
    that range the digits the language prints are those of the nearest
    Number, and from [1e21] an exponent form; a statement about the text
    of a number carries the range as a hypothesis. *)
Definition number_to_string (n : Z) : string :=
  NilZero.string_of_int (Z.to_int n).

(** The values [escapeHtml] is applied to: [undefined], [null], a boolean,
    an integer in the safe range, a string. *)
Inductive value : Type :=
| Undefined
| Null
| Bool (b : bool)
| Num (n : Z)
| Str (s : string).

(** [v ?? d]. *)
Definition nullish (v : value) (d : value) : value :=
  match v with
  | Undefined | Null => d
  | _ => v
  end.

(** [v.toString()] on a value that is neither [undefined] nor [null]; the
    two cases left are unreachable behind [??] and return the receiver
    text the language would throw on. *)
Definition toString (v : value) : string :=
  match v with
  | Undefined => "undefined"
  | Null => "null"
  | Bool true => "true"
  | Bool false => "false"
  | Num n => number_to_string n
  | Str s => s
  end.

(** A field that holds a string or is [null]/missing, as a value. *)
Definition of_field (f : option string) : value :=
  match f with
  | Some s => Str s
  | None => Null
  end.

(** Exceptions: the three error classes the script meets, each with its
    [message]. *)
Inductive exn : Type :=
| TypeError (message : string)
| SyntaxError (message : string)
| Error (message : string).

Definition message (e : exn) : string :=
  match e with
  | TypeError m | SyntaxError m | Error m => m
  end.

(** The message of the [TypeError] of a call whose callee is not a
    function.  The language leaves the text to the engine; this is the
    wording of V8, which names the callee as the member expression of the
    source. *)
Definition not_a_function (callee : string) : string :=
  (callee ++ " is not a function")%string.

End JS.

(** ** Results that may be an exception *)

Inductive outcome (A : Type) : Type :=
| Return (a : A)
| Throw (e : JS.exn).

Arguments Return {A} a.
Arguments Throw {A} e.

(** [Array.prototype.reduce] with an initial value and a callback that may
    throw: the first exception ends the traversal. *)
Fixpoint reduce {A B : Type} (f : B -> A -> outcome B) (arr : list A) (init : B)
  : outcome B :=
  match arr with
  | [] => Return init
  | x :: rest =>
      match f init x with
      | Return m => reduce f rest m
      | Throw e => Throw e
      end
  end.

(** ** Plain objects used as maps

    An object literal [{}] has no own property and inherits the members of
    [Object.prototype].  Own properties are kept in creation order. *)

Module Obj.

Definition t (V : Type) : Type := list (string * V).

(** The property names every plain object inherits. *)
Definition prototype_names : list string :=
  [ "constructor"; "__defineGetter__"; "__defineSetter__"; "hasOwnProperty";
    "__lookupGetter__"; "__lookupSetter__"; "isPrototypeOf";
    "propertyIsEnumerable"; "toString"; "valueOf"; "__proto__";
    "toLocaleString" ].

Definition inherited (k : string) : bool :=
  existsb (String.eqb k) prototype_names.

(** The own property [k], if any. *)
Fixpoint own {V : Type} (m : t V) (k : string) : option V :=
  match m with
  | [] => None
  | (k', v) :: rest => if k' =? k then Some v else own rest k
  end.

(** Writing the own property [k]: an existing property keeps its place, a
    new one is created last. *)
Fixpoint set {V : Type} (m : t V) (k : string) (v : V) : t V :=
  match m with
  | [] => [(k, v)]
  | (k', v') :: rest =>
      if k' =? k then (k', v) :: rest else (k', v') :: set rest k v
  end.

(** What reading [m[k]] finds. *)
Inductive found (V : Type) : Type :=
| Own (v : V)
| Inherited
| Missing.

Arguments Own {V} v.
Arguments Inherited {V}.
Arguments Missing {V}.

Definition get {V : Type} (m : t V) (k : string) : found V :=
  match own m k with
  | Some v => Own v
  | None => if inherited k then Inherited else Missing
  end.

(** Array indexes: the canonical decimal strings of 0 .. 2^32 - 2. *)
Definition digit (c : ascii) : option N :=
  let n := N_of_ascii c in
  if ((48 <=? n) && (n <=? 57))%N then Some (n - 48)%N else None.

Fixpoint digits_value (acc : N) (s : string) : option N :=
  match s with
  | EmptyString => Some acc
  | String c rest =>
      match digit c with
      | Some d => digits_value (10 * acc + d)%N rest
      | None => None
      end
  end.

Definition array_index (s : string) : option N :=
  match s with
  | EmptyString => None
  | String c rest =>
      if Ascii.eqb c "0"%char && negb (rest =? "") then None
      else match digits_value 0 s with
           | Some n => if (n <? 4294967295)%N then Some n else None
           | None => None
           end
  end.

Fixpoint insert_index (e : N * string) (l : list (N * string)) : list (N * string) :=
  match l with
  | [] => [e]
  | e' :: rest =>
      if (fst e <=? fst e')%N then e :: l else e' :: insert_index e rest
  end.

Fixpoint index_keys {V : Type} (m : t V) : list (N * string) :=
  match m with
  | [] => []
  | (k, _) :: rest =>
      match array_index k with
      | Some n => insert_index (n, k) (index_keys rest)
      | None => index_keys rest
      end
  end.

Fixpoint name_keys {V : Type} (m : t V) : list string :=
  match m with
  | [] => []
  | (k, _) :: rest =>
      match array_index k with
      | Some _ => name_keys rest
      | None => k :: name_keys rest
      end
  end.

(** [Object.keys]: the array indexes in ascending numeric order, then the
    other names in creation order. *)
Definition keys {V : Type} (m : t V) : list string :=
  map snd (index_keys m) ++ name_keys m.

(** [Object.entries]: each key of [keys] with the own value under it. *)
Definition entries {V : Type} (m : t V) : list (string * V) :=
  flat_map (fun k => match own m k with
                     | Some v => [(k, v)]
                     | None => []
                     end)
           (keys m).

End Obj.

(** [Array.prototype.sort] without a comparator, on strings: ascending
    order of code units.  Any sorting procedure returns the same array on
    distinct strings; insertion is the one written here. *)
Fixpoint sort_insert (x : string) (l : list string) : list string :=
  match l with
  | [] => [x]
  | y :: rest => if String.leb x y then x :: l else y :: sort_insert x rest
  end.

Fixpoint sort (l : list string) : list string :=
  match l with
  | [] => []
  | x :: rest => sort_insert x (sort rest)
  end.

(** [Array.prototype.slice (start, end)] with its treatment of negative and
    overlong bounds. *)
Definition slice {A : Type} (l : list A) (start stop : Z) : list A :=
  let len := Z.of_nat (length l) in
  let k := if (start <? 0)%Z then Z.max (len + start) 0 else Z.min start len in
  let final := if (stop <? 0)%Z then Z.max (len + stop) 0 else Z.min stop len in
  firstn (Z.to_nat (final - k)) (skipn (Z.to_nat k) l).

(** ** The Change Presenter *)

Module Presenter.

Import JS.

(** A Change Record, with the fields of the schema. *)
Record ChangeRecord : Type := mkChange {
  file : string;
  property : option string;
  old : option string;
  new : option string;
  line_old : option Z;
  line_new : option Z;
  context : string;
  old_lines : option (list string);
  new_lines : option (list string);
  change_type : string
}.

(** *** Helpers *)

Definition badgeForType (t : string) : string :=
  if t =? "insert" then "bg-emerald-900 text-emerald-100 border-emerald-700"
  else if t =? "replace" then "bg-amber-900 text-amber-100 border-amber-700"
  else if t =? "delete" then "bg-rose-900 text-rose-100 border-rose-700"
  else if t =? "file-deleted" then "bg-gray-800 text-gray-200 border-gray-700"
  else "bg-gray-800 text-gray-200 border-gray-700".

Definition escapeHtml (s : value) : string :=
  replaceAll
    (replaceAll
       (replaceAll (toString (nullish s (Str ""))) "&" "&amp;")
       "<" "&lt;")
    ">" "&gt;".

(** [groupBy (arr, key)]; the argument [key] of the model is the reading
    [x => x[key]] followed by the conversion to a property name.  On an
    inherited member [m[k] ||= []] assigns nothing and yields the member,
    which has no [push]. *)
Definition groupBy_step {A : Type} (key : A -> string) (m : Obj.t (list A)) (x : A)
  : outcome (Obj.t (list A)) :=
  match Obj.get m (key x) with
  | Obj.Own g => Return (Obj.set m (key x) (g ++ [x]))
  | Obj.Missing => Return (Obj.set m (key x) [x])
  | Obj.Inherited =>
      Throw (TypeError (not_a_function "m[x[key]].push"))
  end.

Definition groupBy {A : Type} (arr : list A) (key : A -> string)
  : outcome (Obj.t (list A)) :=
  reduce (groupBy_step key) arr [].

(** *** Rendering *)

(** The six cards of the summary: label and value. *)
Definition count_if (p : ChangeRecord -> bool) (changes : list ChangeRecord) : nat :=
  length (filter p changes).

Definition summary_cards (changes : list ChangeRecord) : list (string * nat) :=
  let total := length changes in
  let counts := fun t => count_if (fun c => change_type c =? t) changes in
  let kvCount :=
    count_if (fun c => (context c =? "kv") || (context c =? "plist-kv")) changes in
  let blockCount := count_if (fun c => context c =? "block") changes in
  [ ("Total changes", total);
    ("Replacements", counts "replace");
    ("Insertions", counts "insert");
    ("Deletions", counts "delete");
    ("KV / Plist pairs", kvCount);
    ("Raw blocks", blockCount) ].

(** The type badge: class list and text. *)
Record type_badge : Type := mkBadge {
  badge_class : string;
  badge_text : string
}.

(** The cell of a block: [oldBlock || dash]. *)
Inductive block_cell : Type :=
| Dash
| Lines (text : string).

Definition or_dash (block : string) : block_cell :=
  if truthy block then Lines block else Dash.

(** The three templates of [renderChangeItem]. *)
Inductive card : Type :=
| KvCard (title code line : string) (badge : type_badge)
         (baseline fresh : string) (copy_change : nat)
| FileRemovedCard (badge : type_badge) (copy_change : nat)
| BlockCard (line : string) (badge : type_badge)
            (baseline fresh : block_cell) (copy_change : nat).

Definition line_label (ch : ChangeRecord) : string :=
  match line_new ch with
  | Some n => number_to_string n
  | None =>
      match line_old ch with
      | Some n => number_to_string n
      | None => "-"
      end
  end.

Definition lines_or_empty (ls : option (list string)) : list string :=
  match ls with
  | Some l => l
  | None => []
  end.

Definition renderChangeItem (ch : ChangeRecord) (idx : nat) : card :=
  let line := line_label ch in
  let typeBadge := mkBadge (badgeForType (change_type ch)) (change_type ch) in
  if (context ch =? "kv") || (context ch =? "plist-kv") then
    KvCard (escapeHtml (nullish (of_field (property ch)) (Str "(unknown)")))
           (escapeHtml (nullish (of_field (property ch)) (Str "(unknown)")))
           line typeBadge
           (escapeHtml (of_field (old ch)))
           (escapeHtml (of_field (new ch)))
           idx
  else if change_type ch =? "file-deleted" then
    FileRemovedCard typeBadge idx
  else
    let oldBlock :=
      join LF (map (fun l => ("- " ++ escapeHtml (Str l))%string)
                   (lines_or_empty (old_lines ch))) in
    let newBlock :=
      join LF (map (fun l => ("+ " ++ escapeHtml (Str l))%string)
                   (lines_or_empty (new_lines ch))) in
    BlockCard line typeBadge (or_dash oldBlock) (or_dash newBlock) idx.

(** The tally of change types of one file section.  On an inherited member
    [(m[k] || 0) + 1] is the source text of the member followed by [1]; it
    becomes an own property, except under [__proto__], whose setter ignores
    a string. *)
Inductive tally : Type :=
| Count (n : nat)
| MemberText (member : string) (ones : nat).

Definition tally_step (m : Obj.t tally) (c : ChangeRecord) : Obj.t tally :=
  let k := change_type c in
  match Obj.own m k with
  | Some (Count n) => Obj.set m k (Count (S n))
  | Some (MemberText f n) => Obj.set m k (MemberText f (S n))
  | None =>
      if k =? "__proto__" then m
      else if Obj.inherited k then Obj.set m k (MemberText k 1)
      else Obj.set m k (Count 1)
  end.

Record file_section : Type := mkSection {
  section_title : string;
  section_badges : list (type_badge * tally);
  section_items : list card
}.

Definition section_badge (e : string * tally) : type_badge * tally :=
  (mkBadge (badgeForType (fst e)) (fst e), snd e).

(** [items.map] of one section: the running [globalIndex] is the second
    argument. *)
Fixpoint render_items (items : list ChangeRecord) (globalIndex : nat) : list card :=
  match items with
  | [] => []
  | item :: rest => renderChangeItem item globalIndex :: render_items rest (S globalIndex)
  end.

(** [groups[fname]]; every name comes from [Object.keys groups]. *)
Definition group_items (groups : Obj.t (list ChangeRecord)) (fname : string)
  : list ChangeRecord :=
  match Obj.own groups fname with
  | Some items => items
  | None => []
  end.

(** [fileNames.map]: the sections, with [globalIndex] and
    [CURRENT_RENDERED] threaded through. *)
Fixpoint render_sections (groups : Obj.t (list ChangeRecord)) (fileNames : list string)
    (globalIndex : nat) (rendered : list ChangeRecord)
  : list file_section * list ChangeRecord :=
  match fileNames with
  | [] => ([], rendered)
  | fname :: rest =>
      let items := group_items groups fname in
      let badges := map section_badge (Obj.entries (fold_left tally_step items [])) in
      let renderedItems := render_items items globalIndex in
      let '(sections, rendered') :=
        render_sections groups rest (globalIndex + length items) (rendered ++ items) in
      (mkSection (escapeHtml (Str fname)) badges renderedItems :: sections, rendered')
  end.

(** *** Module-level variables and the document *)

Inductive page_size : Type :=
| All
| Rows (n : Z).

Inductive pager_text : Type :=
| NoResults
| Range (first last total page totalPages : Z).

Record state : Type := mkState {
  DATA : list ChangeRecord;
  LAST_FILTERED : list ChangeRecord;
  PAGE : Z;
  PAGE_SIZE : page_size;
  CURRENT_RENDERED : list ChangeRecord;
  (* form controls *)
  q : string;
  typeFilter : string;
  ctxFilter : string;
  pasteArea : string;
  (* rendered elements *)
  summary : list (string * nat);
  files : list file_section;
  pageInfo : pager_text;
  pagePrev_disabled : bool;
  pageNext_disabled : bool;
  pasteDialog_open : bool;
  loadingEl : bool;
  (* the messages shown by [alert], oldest first *)
  alerts : list string
}.

Definition set_DATA (v : list ChangeRecord) (st : state) : state :=
  mkState v (LAST_FILTERED st) (PAGE st) (PAGE_SIZE st) (CURRENT_RENDERED st)
          (q st) (typeFilter st) (ctxFilter st) (pasteArea st)
          (summary st) (files st) (pageInfo st) (pagePrev_disabled st)
          (pageNext_disabled st) (pasteDialog_open st) (loadingEl st) (alerts st).

Definition set_LAST_FILTERED (v : list ChangeRecord) (st : state) : state :=
  mkState (DATA st) v (PAGE st) (PAGE_SIZE st) (CURRENT_RENDERED st)
          (q st) (typeFilter st) (ctxFilter st) (pasteArea st)
          (summary st) (files st) (pageInfo st) (pagePrev_disabled st)
          (pageNext_disabled st) (pasteDialog_open st) (loadingEl st) (alerts st).

Definition set_PAGE (v : Z) (st : state) : state :=
  mkState (DATA st) (LAST_FILTERED st) v (PAGE_SIZE st) (CURRENT_RENDERED st)
          (q st) (typeFilter st) (ctxFilter st) (pasteArea st)
          (summary st) (files st) (pageInfo st) (pagePrev_disabled st)
          (pageNext_disabled st) (pasteDialog_open st) (loadingEl st) (alerts st).

Definition set_files (r : list ChangeRecord) (v : list file_section) (st : state)
  : state :=
  mkState (DATA st) (LAST_FILTERED st) (PAGE st) (PAGE_SIZE st) r
          (q st) (typeFilter st) (ctxFilter st) (pasteArea st)
          (summary st) v (pageInfo st) (pagePrev_disabled st)
          (pageNext_disabled st) (pasteDialog_open st) (loadingEl st) (alerts st).

Definition set_summary (v : list (string * nat)) (st : state) : state :=
  mkState (DATA st) (LAST_FILTERED st) (PAGE st) (PAGE_SIZE st) (CURRENT_RENDERED st)
          (q st) (typeFilter st) (ctxFilter st) (pasteArea st)
          v (files st) (pageInfo st) (pagePrev_disabled st)
          (pageNext_disabled st) (pasteDialog_open st) (loadingEl st) (alerts st).

Definition set_pager (t : pager_text) (p n : bool) (st : state) : state :=
  mkState (DATA st) (LAST_FILTERED st) (PAGE st) (PAGE_SIZE st) (CURRENT_RENDERED st)
          (q st) (typeFilter st) (ctxFilter st) (pasteArea st)
          (summary st) (files st) t p n (pasteDialog_open st) (loadingEl st)
          (alerts st).

Definition set_pasteDialog_open (v : bool) (st : state) : state :=
  mkState (DATA st) (LAST_FILTERED st) (PAGE st) (PAGE_SIZE st) (CURRENT_RENDERED st)
          (q st) (typeFilter st) (ctxFilter st) (pasteArea st)
          (summary st) (files st) (pageInfo st) (pagePrev_disabled st)
          (pageNext_disabled st) v (loadingEl st) (alerts st).

Definition set_loadingEl (v : bool) (st : state) : state :=
  mkState (DATA st) (LAST_FILTERED st) (PAGE st) (PAGE_SIZE st) (CURRENT_RENDERED st)
          (q st) (typeFilter st) (ctxFilter st) (pasteArea st)
          (summary st) (files st) (pageInfo st) (pagePrev_disabled st)
          (pageNext_disabled st) (pasteDialog_open st) v (alerts st).

Definition add_alert (msg : string) (st : state) : state :=
  mkState (DATA st) (LAST_FILTERED st) (PAGE st) (PAGE_SIZE st) (CURRENT_RENDERED st)
          (q st) (typeFilter st) (ctxFilter st) (pasteArea st)
          (summary st) (files st) (pageInfo st) (pagePrev_disabled st)
          (pageNext_disabled st) (pasteDialog_open st) (loadingEl st)
          (alerts st ++ [msg]).

(** The monad of the script: state, with exceptions that keep the state
    reached. *)
Definition M (A : Type) : Type := state -> outcome A * state.

Definition ret {A : Type} (a : A) : M A := fun st => (Return a, st).

Definition bind {A B : Type} (c : M A) (k : A -> M B) : M B :=
  fun st =>
    match c st with
    | (Return a, st') => k a st'
    | (Throw e, st') => (Throw e, st')
    end.

Definition throw {A : Type} (e : exn) : M A := fun st => (Throw e, st).

Definition lift {A : Type} (o : outcome A) : M A := fun st => (o, st).

Definition modify (f : state -> state) : M unit := fun st => (Return tt, f st).

Definition try_catch (body : M unit) (handler : exn -> M unit) : M unit :=
  fun st =>
    match body st with
    | (Return a, st') => (Return a, st')
    | (Throw e, st') => handler e st'
    end.

Definition alert (msg : string) : M unit := modify (add_alert msg).

Declare Scope script_scope.
Delimit Scope script_scope with script.
Notation "x <- c ;; k" := (bind c (fun x => k))
  (at level 61, c at next level, right associativity) : script_scope.
Notation "c ;; k" := (bind c (fun _ => k))
  (at level 61, right associativity) : script_scope.
Open Scope script_scope.

Definition renderSummary (changes : list ChangeRecord) : M unit :=
  modify (set_summary (summary_cards changes)).

Definition renderFiles (changes : list ChangeRecord) : M unit :=
  groups <- lift (groupBy changes file) ;;
  let fileNames := sort (Obj.keys groups) in
  let '(fileMarkup, rendered) := render_sections groups fileNames 0 [] in
  modify (set_files rendered fileMarkup).

(** *** Data and filters *)

(** The text searched: the truthy ones among the six fields, joined by a
    space. *)
Definition hay (c : ChangeRecord) : string :=
  let text := fun f : option string => match f with Some s => s | None => "" end in
  toLowerCase
    (join " "
       (filter truthy
          [ file c; text (property c); text (old c); text (new c);
            join LF (lines_or_empty (old_lines c));
            join LF (lines_or_empty (new_lines c)) ])).

(** The callback of [DATA.filter]. *)
Definition keep (q tf cf : string) (c : ChangeRecord) : bool :=
  if truthy tf && negb (change_type c =? tf) then false
  else if truthy cf && negb (context c =? cf) then false
  else if negb (truthy q) then true
  else includes (hay c) q.

(** [Math.ceil (a / b)] on integers. *)
Definition ceil_div (a b : Z) : Z := (- ((- a) / b))%Z.

Record page_info : Type := mkInfo {
  total : Z;
  size : Z;
  totalPages : Z;
  page : Z;
  start : Z;
  stop : Z;
  pageItems : list ChangeRecord
}.

Definition computePage (st : state) : page_info :=
  let total := Z.of_nat (length (LAST_FILTERED st)) in
  let size := match PAGE_SIZE st with All => total | Rows n => n end in
  let totalPages :=
    if (size =? 0)%Z then 1%Z
    else Z.max 1 (ceil_div total (if (size =? 0)%Z then 1 else size)) in
  let clampedPage := Z.min (Z.max 1 (PAGE st)) totalPages in
  let start := if (size =? 0)%Z then 0%Z else ((clampedPage - 1) * size)%Z in
  let stop := if (size =? 0)%Z then total else Z.min (start + size) total in
  let pageItems := slice (LAST_FILTERED st) start stop in
  mkInfo total size totalPages clampedPage start stop pageItems.

Definition renderPager (info : page_info) : M unit :=
  let text :=
    if (total info =? 0)%Z then NoResults
    else Range (start info + 1) (stop info) (total info) (page info)
               (totalPages info) in
  modify (set_pager text (page info <=? 1)%Z (totalPages info <=? page info)%Z).

Definition updatePage : M unit :=
  fun st =>
    let info := computePage st in
    (modify (set_PAGE (page info)) ;;
     renderFiles (pageItems info) ;;
     renderPager info) st.

Definition applyFilters : M unit :=
  fun st =>
    let q := trim (toLowerCase (q st)) in
    let tf := typeFilter st in
    let cf := ctxFilter st in
    (modify (set_LAST_FILTERED (filter (keep q tf cf) (DATA st))) ;;
     modify (set_PAGE 1) ;;
     (fun st' => renderSummary (LAST_FILTERED st') st') ;;
     updatePage) st.

(** *** Import, paste, sample *)

(** What [JSON.parse] returns: an array of Change Records, or a root of
    another kind. *)
Inductive json : Type :=
| ArrayRoot (records : list ChangeRecord)
| OtherRoot.

Section Loading.

(** [JSON.parse]; it throws a [SyntaxError] on a text that is not JSON. *)
Variable JSON_parse : string -> outcome json.

(** The body of the three [try] blocks up to the assignment of [DATA]. *)
Definition parse_array (text : string) : M (list ChangeRecord) :=
  parsed <- lift (JSON_parse text) ;;
  match parsed with
  | ArrayRoot records => ret records
  | OtherRoot => throw (Error "Root must be an array")
  end.

Definition invalid_json (err : exn) : M unit :=
  alert ("Invalid JSON: " ++ message err)%string.

(** [reader.onload] of the file chooser. *)
Definition fileInput_onload (result : string) : M unit :=
  try_catch
    (parsed <- parse_array result ;;
     modify (set_DATA parsed) ;;
     applyFilters)
    invalid_json.

(** The [change] handler of the file chooser; [None] is an empty
    selection. *)
Definition fileInput_change (file : option string) : M unit :=
  match file with
  | None => ret tt
  | Some result => fileInput_onload result
  end.

(** The [click] handler of the [pasteApply] button. *)
Definition pasteApply_click : M unit :=
  try_catch
    (fun st =>
       (parsed <- parse_array (pasteArea st) ;;
        modify (set_DATA parsed) ;;
        modify (set_pasteDialog_open false) ;;
        applyFilters) st)
    invalid_json.

(** The [drop] handler of the window that loads the dropped file, with
    the reading of the file completed; a file is its media type and its
    text. *)
Definition window_drop (dropped : option (string * string)) : M unit :=
  match dropped with
  | None => ret tt
  | Some (type, result) =>
      if negb (includes type "json" || includes type "text")
      then alert "Please drop a JSON file."
      else
        modify (set_loadingEl true) ;;
        try_catch
          (parsed <- parse_array result ;;
           modify (set_DATA parsed) ;;
           applyFilters)
          invalid_json ;;
        modify (set_loadingEl false)
  end.

End Loading.

(** The built-in sample. *)
Definition sample : list ChangeRecord :=
  [ mkChange "Scripts/Powershell/Script Data/intunecd_appreg.ps1" None None None
             (Some 14%Z) (Some 14%Z) "block"
             (Some ["$appName = " ++ DQ ++ "IntuneCD-Monitor" ++ DQ])
             (Some ["$appName = " ++ DQ ++ "IntuneCD" ++ DQ])
             "replace";
    mkChange "Settings Catalog/Baseline - W365_mdm.json" (Some "value")
             (Some (DQ ++ "device_vendor_msft_policy_config_devicelock_preventenablinglockscreencamera_1" ++ DQ))
             (Some (DQ ++ "device_vendor_msft_policy_config_devicelock_preventenablinglockscreencamera_0" ++ DQ))
             (Some 28%Z) (Some 28%Z) "kv" None None "replace";
    mkChange "Assignment Report/report.json" None None None
             (Some 1%Z) None "block" (Some []) (Some []) "file-deleted" ]%string.

(** The [click] handler of the [loadSample] button. *)
Definition loadSample_click : M unit :=
  modify (set_DATA sample) ;;
  applyFilters.

(** The state the script leaves at start-up is [applyFilters] on this
    one. *)
Definition initial : state :=
  mkState [] [] 1 (Rows 50) [] "" "" "" "" [] [] NoResults true true false false [].

(** *** The other listeners *)

Definition set_PAGE_SIZE (v : page_size) (st : state) : state :=
  mkState (DATA st) (LAST_FILTERED st) (PAGE st) v (CURRENT_RENDERED st)
          (q st) (typeFilter st) (ctxFilter st) (pasteArea st)
          (summary st) (files st) (pageInfo st) (pagePrev_disabled st)
          (pageNext_disabled st) (pasteDialog_open st) (loadingEl st) (alerts st).

Definition set_q (v : string) (st : state) : state :=
  mkState (DATA st) (LAST_FILTERED st) (PAGE st) (PAGE_SIZE st) (CURRENT_RENDERED st)
          v (typeFilter st) (ctxFilter st) (pasteArea st)
          (summary st) (files st) (pageInfo st) (pagePrev_disabled st)
          (pageNext_disabled st) (pasteDialog_open st) (loadingEl st) (alerts st).

Definition set_typeFilter (v : string) (st : state) : state :=
  mkState (DATA st) (LAST_FILTERED st) (PAGE st) (PAGE_SIZE st) (CURRENT_RENDERED st)
          (q st) v (ctxFilter st) (pasteArea st)
          (summary st) (files st) (pageInfo st) (pagePrev_disabled st)
          (pageNext_disabled st) (pasteDialog_open st) (loadingEl st) (alerts st).

Definition set_ctxFilter (v : string) (st : state) : state :=
  mkState (DATA st) (LAST_FILTERED st) (PAGE st) (PAGE_SIZE st) (CURRENT_RENDERED st)
          (q st) (typeFilter st) v (pasteArea st)
          (summary st) (files st) (pageInfo st) (pagePrev_disabled st)
          (pageNext_disabled st) (pasteDialog_open st) (loadingEl st) (alerts st).

Definition set_pasteArea (v : string) (st : state) : state :=
  mkState (DATA st) (LAST_FILTERED st) (PAGE st) (PAGE_SIZE st) (CURRENT_RENDERED st)
          (q st) (typeFilter st) (ctxFilter st) v
          (summary st) (files st) (pageInfo st) (pagePrev_disabled st)
          (pageNext_disabled st) (pasteDialog_open st) (loadingEl st) (alerts st).

(** The listeners [groupFilterInputs] registers.  An [input] or [change]
    event reaches its listener once the control holds its new value [v]. *)
Definition q_input (v : string) : M unit :=
  modify (set_q v) ;; applyFilters.

Definition typeFilter_change (v : string) : M unit :=
  modify (set_typeFilter v) ;; applyFilters.

Definition ctxFilter_change (v : string) : M unit :=
  modify (set_ctxFilter v) ;; applyFilters.

Definition clearFilters_click : M unit :=
  modify (set_q "") ;;
  modify (set_typeFilter "") ;;
  modify (set_ctxFilter "") ;;
  applyFilters.

(** The [click] listeners of [pagePrev] and [pagePrevB], and of [pageNext]
    and [pageNextB]. *)
Definition pagePrev_click : M unit :=
  fun st =>
    if (1 <? PAGE st)%Z
    then (modify (set_PAGE (PAGE st - 1)) ;; updatePage) st
    else ret tt st.

Definition pageNext_click : M unit :=
  fun st =>
    let info := computePage st in
    if (PAGE st <? totalPages info)%Z
    then (modify (set_PAGE (PAGE st + 1)) ;; updatePage) st
    else ret tt st.

Section Rows.

(** [Number] on the value of the [rowsPerPage] selector, for the values
    that denote an integer; [None] is [NaN]. *)
Variable Number : string -> option Z.

(** [Number (v) || 50]: zero and [NaN] are falsy. *)
Definition Number_or_50 (v : string) : Z :=
  match Number v with
  | Some n => if (n =? 0)%Z then 50%Z else n
  | None => 50%Z
  end.

(** The [change] listener of the [rowsPerPage] selector. *)
Definition rowsPerPage_change (v : string) : M unit :=
  modify (set_PAGE_SIZE (if v =? "all" then All
                         else Rows (Z.max 1 (Number_or_50 v)))) ;;
  modify (set_PAGE 1) ;;
  updatePage.

End Rows.

(** The [click] listener of the files element, up to the object it hands
    to [JSON.stringify]: [button] is the index read from the closest
    [data-copy-change] attribute, [None] when the click is on no button. *)
Definition copy_target (button : option nat) (st : state) : option ChangeRecord :=
  match button with
  | None => None
  | Some idx => nth_error (CURRENT_RENDERED st) idx
  end.

(** What the user does on the page: the edits of the controls and the
    events that have a listener above. *)
Inductive event : Type :=
| SearchInput (v : string)
| TypeFilterChange (v : string)
| CtxFilterChange (v : string)
| ClearFilters
| RowsPerPage (v : string)
| PagePrev
| PageNext
| FileChosen (file : option string)
| PasteEdit (v : string)
| PasteApply
| Drop (dropped : option (string * string))
| LoadSample.

Definition handle (JSON_parse : string -> outcome json)
    (Number : string -> option Z) (ev : event) : M unit :=
  match ev with
  | SearchInput v => q_input v
  | TypeFilterChange v => typeFilter_change v
  | CtxFilterChange v => ctxFilter_change v
  | ClearFilters => clearFilters_click
  | RowsPerPage v => rowsPerPage_change Number v
  | PagePrev => pagePrev_click
  | PageNext => pageNext_click
  | FileChosen file => fileInput_change JSON_parse file
  | PasteEdit v => modify (set_pasteArea v)
  | PasteApply => pasteApply_click JSON_parse
  | Drop dropped => window_drop JSON_parse dropped
  | LoadSample => loadSample_click
  end.

(** A session: the events in order, each on the state the one before left,
    whether or not its listener threw. *)
Fixpoint session (JSON_parse : string -> outcome json)
    (Number : string -> option Z) (evs : list event) (st : state) : state :=
  match evs with
  | [] => st
  | ev :: rest =>
      session JSON_parse Number rest (snd (handle JSON_parse Number ev st))
  end.

(** The state at the end of the script: the declarations of the
    module-level variables, then [DATA = []; applyFilters ()]. *)
Definition boot : state := snd (applyFilters initial).

End Presenter.

(** ** The theme

    [theme-init.js] and the theme listeners of the viewer script. *)

Module Theme.

(** [localStorage]: access throws, or the item [theme] is read and
    written. *)
Inductive storage : Type :=
| Blocked
| Item (theme : option string).

Inductive glyph : Type :=
| Sun
| Moon.

Record page : Type := mkPage {
  dark : bool;           (* the root element has the class [dark] *)
  localStorage : storage;
  button : glyph         (* the text of the theme buttons *)
}.

(** [theme-init.js]; [prefersDark] is the media query
    [(prefers-color-scheme: dark)]. *)
Definition theme_init (prefersDark : bool) (p : page) : page :=
  match localStorage p with
  | Blocked => p
  | Item stored =>
      let isDark :=
        match stored with
        | Some t => if JS.truthy t then t =? "dark" else prefersDark
        | None => prefersDark
        end in
      mkPage isDark (localStorage p) (button p)
  end.

Definition setThemeButtonIcon (p : page) : page :=
  mkPage (dark p) (localStorage p) (if dark p then Sun else Moon).

(** The [click] listener of the theme buttons. *)
Definition themeToggle_click (p : page) : page :=
  let isDark := negb (dark p) in
  let stored :=
    match localStorage p with
    | Blocked => Blocked
    | Item _ => Item (Some (if isDark then "dark" else "light"))
    end in
  setThemeButtonIcon (mkPage isDark stored (button p)).

End Theme.

(** ** The invariants of the schema (specification, section 3) *)

Module Schema.

Import Presenter.







End Schema.

(** ** The Change Extractor

    The Extractor is the script [gitdiffer.py]; what follows is its
    contract, section 4.1 of the specification. *)

Module Extractor.

Import JS Presenter.

(** Modelled from the spec: the two structured formats of the Extractor
    ([gitdiffer.py]), "plist-style" and "JSON-like", and the [context] each
    gives to its records. *)
Inductive kv_format : Type :=
| JsonLike
| PlistStyle.

(** Modelled from the spec: the [context] tag of the Extractor's records
    of each structured format. *)
Definition context_of (fmt : kv_format) : string :=
  match fmt with
  | JsonLike => "kv"
  | PlistStyle => "plist-kv"
  end.

(** Modelled from the spec: one element of the "ordered key->value
    sequence" the Extractor parses a structured file into: the path-like
    property identifier, the literal text of the value and its line. *)
Record entry : Type := mkEntry {
  key : string;
  value : string;
  line : Z
}.

(** Modelled from the spec: one step of the edit script of the line-diff
    primitive the Extractor relies on. *)
Inductive edit : Type :=
| Keep (l : string)
| Del (l : string)
| Add (l : string).

(** Modelled from the spec: the lines of a file content, without their
    terminators. *)
Fixpoint split_lines (cur s : string) : list string :=
  match s with
  | EmptyString => if cur =? "" then [] else [cur]
  | String c rest =>
      if Ascii.eqb c (ascii_of_nat 10) then cur :: split_lines "" rest
      else split_lines (cur ++ String c EmptyString) rest
  end.

(** Modelled from the spec: the line-diff primitive of the Extractor, as
    an edit script from the old lines to the new ones: equal heads are
    kept, otherwise the shorter of removing the old head and adding the
    new one is taken. *)
Fixpoint line_diff (a b : list string) {struct a} : list edit :=
  match a with
  | [] => map Add b
  | x :: a' =>
      (fix against (b : list string) : list edit :=
         match b with
         | [] => map Del a
         | y :: b' =>
             if x =? y then Keep x :: line_diff a' b'
             else
               let d := Del x :: line_diff a' b in
               let i := Add y :: against b' in
               if (length d <=? length i)%nat then d else i
         end) b
  end.

(** Modelled from the spec: a maximal run of added and removed lines of
    the Extractor's block diff, with the first line it touches in each
    version. *)
Record hunk : Type := mkHunk {
  removed : list string;
  added : list string;
  at_old : Z;
  at_new : Z
}.

(** Modelled from the spec: the run of the Extractor's block diff that a
    changed line joins, opened at the current positions when the line
    before was unchanged. *)
Definition open_hunk (cur : option hunk) (i j : Z) : hunk :=
  match cur with
  | Some h => h
  | None => mkHunk [] [] i j
  end.

(** Modelled from the spec: the end of a run of the Extractor's block
    diff at an unchanged line or at the end of the file. *)
Definition flush (cur : option hunk) : list hunk :=
  match cur with
  | Some h => [h]
  | None => []
  end.

(** Modelled from the spec: the collapsing of the edit script of the
    Extractor into maximal runs; [i] and [j] are the 1-based numbers of
    the next old and new line. *)
Fixpoint hunks (script : list edit) (i j : Z) (cur : option hunk) : list hunk :=
  match script with
  | [] => flush cur
  | Keep _ :: rest => flush cur ++ hunks rest (i + 1) (j + 1) None
  | Del l :: rest =>
      let h := open_hunk cur i j in
      hunks rest (i + 1) j
            (Some (mkHunk (removed h ++ [l]) (added h) (at_old h) (at_new h)))
  | Add l :: rest =>
      let h := open_hunk cur i j in
      hunks rest i (j + 1)
            (Some (mkHunk (removed h) (added h ++ [l]) (at_old h) (at_new h)))
  end.

(** Modelled from the spec: the block record the Extractor emits for a
    run: [insert] for purely added lines, [delete] for purely removed
    ones, [replace] otherwise; an absent side has no line number. *)
Definition hunk_record (path : string) (h : hunk) : ChangeRecord :=
  let kind :=
    match removed h, added h with
    | [], _ => "insert"
    | _, [] => "delete"
    | _, _ => "replace"
    end in
  mkChange path None None None
           (match removed h with [] => None | _ => Some (at_old h) end)
           (match added h with [] => None | _ => Some (at_new h) end)
           "block" (Some (removed h)) (Some (added h)) kind.

(** Modelled from the spec: rule 3 of the Extractor, the line-level diff
    of unstructured text. *)
Definition block_diff (path old new : string) : list ChangeRecord :=
  map (hunk_record path)
      (hunks (line_diff (split_lines "" old) (split_lines "" new)) 1 1 None).

(** Modelled from the spec: the value the Extractor's key->value sequence
    gives to a key. *)
Fixpoint lookup (k : string) (es : list entry) : option entry :=
  match es with
  | [] => None
  | e :: rest => if key e =? k then Some e else lookup k rest
  end.

(** Modelled from the spec: the key set of a key->value sequence of the
    Extractor, in order of first occurrence. *)
Definition keys_of (es : list entry) : list string :=
  nodup string_dec (map key es).

(** Modelled from the spec: rule 2 of the Extractor, the diff of key sets
    and values: the keys of the new version first ([insert], or [replace]
    when the value differs), then the keys only the old version has
    ([delete]). *)
Definition kv_diff (path : string) (fmt : kv_format) (olds news : list entry)
  : list ChangeRecord :=
  flat_map
    (fun k =>
       match lookup k olds, lookup k news with
       | None, Some n =>
           [ mkChange path (Some k) None (Some (value n)) None (Some (line n))
                      (context_of fmt) None None "insert" ]
       | Some o, Some n =>
           if value o =? value n then []
           else [ mkChange path (Some k) (Some (value o)) (Some (value n))
                           (Some (line o)) (Some (line n))
                           (context_of fmt) None None "replace" ]
       | _, None => []
       end)
    (keys_of news)
  ++
  flat_map
    (fun k =>
       match lookup k olds, lookup k news with
       | Some o, None =>
           [ mkChange path (Some k) (Some (value o)) None (Some (line o)) None
                      (context_of fmt) None None "delete" ]
       | _, _ => []
       end)
    (keys_of olds).

Section Extract.

(** Modelled from the spec: the detection of a structured format from
    the path of the file, the parser of each format ([None] on malformed
    input) and the position a removed file had, if determinable; the
    specification leaves the three to the Extractor ([gitdiffer.py]). *)
Variable recognize : string -> option kv_format.
Variable parse : kv_format -> string -> option (list entry).
Variable position : string -> option Z.

(** Modelled from the spec: the contract of the Extractor (section 4.1):
    [None] is an absent content. *)
Definition extract (path : string) (old new : option string) : list ChangeRecord :=
  match new with
  | None =>
      [ mkChange path None None None (position path) None
                 "block" (Some []) (Some []) "file-deleted" ]
  | Some n =>
      let o := match old with Some o => o | None => "" end in
      match recognize path with
      | Some fmt =>
          match parse fmt o, parse fmt n with
          | Some olds, Some news => kv_diff path fmt olds news
          | _, _ => block_diff path o n
          end
      | None => block_diff path o n
      end
  end.

End Extract.

End Extractor.

(** ** Vocabulary of the statements *)

Module Props.

Import JS Presenter.

(** The code unit [c] occurs in [s]. *)
Definition occurs (c : ascii) (s : string) : Prop :=
  In c (list_ascii_of_string s).

(** [needle] is a substring of [text]. *)
Definition contains (text needle : string) : Prop :=
  exists pre post, text = (pre ++ needle ++ post)%string.

(** The six texts a search reads, in the order of the specification:
    [file], [property], [old], [new], the lines of [old_lines] and the
    lines of [new_lines], each line-content field with a line feed between
    two lines.  A field that is [null] or missing gives the empty text. *)
Definition field_text (f : option string) : string :=
  match f with
  | Some t => t
  | None => ""
  end.

Fixpoint joined_lines (ls : list string) : string :=
  match ls with
  | [] => ""
  | [l] => l
  | l :: rest => l ++ LF ++ joined_lines rest
  end.

Definition lines_text (f : option (list string)) : string :=
  match f with
  | Some ls => joined_lines ls
  | None => ""
  end.

Definition searched_fields (r : ChangeRecord) : list string :=
  [ file r; field_text (property r); field_text (old r); field_text (new r);
    lines_text (old_lines r); lines_text (new_lines r) ].

(** The texts put end to end, nothing between them. *)
Fixpoint concatenation (texts : list string) : string :=
  match texts with
  | [] => ""
  | t :: rest => t ++ concatenation rest
  end.

(** The texts that are not empty, one space between two of them. *)
Fixpoint spaced (texts : list string) : string :=
  match texts with
  | [] => ""
  | t :: rest =>
      if t =? "" then spaced rest
      else if spaced rest =? "" then t
      else t ++ " " ++ spaced rest
  end.

(** The records a filter keeps when the search is made in [text r], for
    the values [search], [tf] and [cf] of the search box and of the two
    selectors. *)
Definition selected_in (text : ChangeRecord -> string) (search tf cf : string)
    (r : ChangeRecord) : Prop :=
  (tf <> "" -> change_type r = tf) /\
  (cf <> "" -> context r = cf) /\
  (search <> "" -> contains (text r) (trim (toLowerCase search))).

(** The records to keep as the specification words it: the search is made
    in the lower-cased concatenation of the six texts. *)
Definition selected_as_stated : string -> string -> string -> ChangeRecord -> Prop :=
  selected_in (fun r => toLowerCase (concatenation (searched_fields r))).

(** The records to keep: the search is made in the six texts, lower-cased,
    with the empty ones left out and one space between the others, so that
    no match runs from one field into the next. *)
Definition selected : string -> string -> string -> ChangeRecord -> Prop :=
  selected_in (fun r => toLowerCase (spaced (searched_fields r))).

(** Record updates, to say that a function does not read a field. *)
Definition with_line_numbers (lo ln : option Z) (r : ChangeRecord) : ChangeRecord :=
  mkChange (file r) (property r) (old r) (new r) lo ln (context r)
           (old_lines r) (new_lines r) (change_type r).



(** What a load attempt on a parse result is rejected with, if it is. *)
Definition rejection (parsed : outcome json) : option string :=
  match parsed with
  | Throw e => Some ("Invalid JSON: " ++ message e)%string
  | Return OtherRoot => Some "Invalid JSON: Root must be an array"
  | Return (ArrayRoot _) => None
  end.

(** The media types the drop handler reads. *)
Definition readable (type : string) : bool :=
  includes type "json" || includes type "text".

(** The dataset and its rendered view are the same in [st] and [st']. *)
Definition same_view (st st' : state) : Prop :=
  DATA st' = DATA st /\ LAST_FILTERED st' = LAST_FILTERED st /\
  PAGE st' = PAGE st /\ PAGE_SIZE st' = PAGE_SIZE st /\
  CURRENT_RENDERED st' = CURRENT_RENDERED st /\
  summary st' = summary st /\ files st' = files st /\
  pageInfo st' = pageInfo st /\
  pagePrev_disabled st' = pagePrev_disabled st /\
  pageNext_disabled st' = pageNext_disabled st.

(** A load attempt that took [st] to [st'] was rejected with [msg]. *)
Definition rejected (msg : string) (st st' : state) : Prop :=
  alerts st' = alerts st ++ [msg] /\ same_view st st'.

(** The effect on the dataset of a load attempt that read [parsed] and
    took [st] to [st']: an array replaces [DATA] and is filtered by the
    controls of [st]; anything else leaves [DATA] as it was. *)
Definition loaded (parsed : outcome json) (st st' : state) : Prop :=
  match parsed with
  | Return (ArrayRoot records) =>
      DATA st' = records /\
      LAST_FILTERED st' =
        filter (keep (trim (toLowerCase (q st))) (typeFilter st) (ctxFilter st))
               records
  | _ => DATA st' = DATA st /\ LAST_FILTERED st' = LAST_FILTERED st
  end.

(** Ascending order of code units. *)
Definition ascending (a b : string) : Prop := String.leb a b = true.

(** The group a key must get: the group it had, followed by the elements
    of the array under that key, in the order of the array. *)
Definition grown {A : Type} (key : A -> string) (arr : list A)
    (before : option (list A)) (k : string) : option (list A) :=
  match before, filter (fun x => key x =? k) arr with
  | Some g, l => Some (g ++ l)
  | None, [] => None
  | None, l => Some l
  end.


(** [JSON.parse] as far as the examples go: the empty array, the empty
    object and the empty text; any other text is answered like the empty
    one. *)
Definition parse_example (text : string) : outcome json :=
  if text =? "[]" then Return (ArrayRoot [])
  else if text =? "{}" then Return OtherRoot
  else Throw (SyntaxError "Unexpected end of JSON input").

(** *** Vocabulary of the further properties *)

(** The entity [escapeHtml] writes for a code unit, or the unit itself. *)
Definition entity (c : ascii) : string :=
  if Ascii.eqb c "&" then "&amp;"
  else if Ascii.eqb c "<" then "&lt;"
  else if Ascii.eqb c ">" then "&gt;"
  else String c EmptyString.

Fixpoint escape_units (s : string) : string :=
  match s with
  | EmptyString => EmptyString
  | String c rest => (entity c ++ escape_units rest)%string
  end.

(** A text with no angle bracket. *)
Definition clean (s : string) : Prop :=
  ~ occurs "<" s /\ ~ occurs ">" s.

(** The holes of a card.  [card_escaped] lists the texts that went through
    [escapeHtml]: the property name (twice) and the two values of a
    key-value card, the two blocks of a block card.  The other holes are
    filled as they are: the line ([card_line]), the type badge
    ([card_badge]) and the copy index ([card_copy]). *)
Definition cell_text (c : block_cell) : list string :=
  match c with
  | Dash => []
  | Lines text => [text]
  end.

Definition card_escaped (c : card) : list string :=
  match c with
  | KvCard title code _ _ baseline fresh _ => [title; code; baseline; fresh]
  | FileRemovedCard _ _ => []
  | BlockCard _ _ baseline fresh _ => cell_text baseline ++ cell_text fresh
  end.

Definition card_line (c : card) : option string :=
  match c with
  | KvCard _ _ line _ _ _ _ => Some line
  | FileRemovedCard _ _ => None
  | BlockCard line _ _ _ _ => Some line
  end.

(** The integers a Number holds exactly and prints digit by digit, and
    the records whose line numbers are such. *)
Definition safe_integer (n : Z) : Prop := (- 2 ^ 53 < n < 2 ^ 53)%Z.

Definition safe_lines (ch : ChangeRecord) : Prop :=
  (forall n, line_old ch = Some n -> safe_integer n) /\
  (forall n, line_new ch = Some n -> safe_integer n).

Definition card_badge (c : card) : type_badge :=
  match c with
  | KvCard _ _ _ badge _ _ _ => badge
  | FileRemovedCard badge _ => badge
  | BlockCard _ badge _ _ _ => badge
  end.

Definition card_copy (c : card) : nat :=
  match c with
  | KvCard _ _ _ _ _ _ idx => idx
  | FileRemovedCard _ idx => idx
  | BlockCard _ _ _ _ idx => idx
  end.

(** The page sizes the selector can leave, and the states whose page is
    within the pages of the filtered list. *)
Definition size_ok (s : page_size) : Prop :=
  match s with
  | All => True
  | Rows n => (1 <= n)%Z
  end.

Definition page_ok (st : state) : Prop :=
  size_ok (PAGE_SIZE st) /\
  (1 <= PAGE st <= totalPages (computePage st))%Z.

(** The items of page [p] of a state. *)
Definition items_of_page (st : state) (p : nat) : list ChangeRecord :=
  pageItems (computePage (set_PAGE (Z.of_nat p) st)).

(** Two records with the change type and context equal and the text of
    the searched fields equal up to the case of letters. *)
Definition same_letters (r r' : ChangeRecord) : Prop :=
  change_type r = change_type r' /\ context r = context r' /\
  toLowerCase (file r) = toLowerCase (file r') /\
  option_map toLowerCase (property r) = option_map toLowerCase (property r') /\
  option_map toLowerCase (old r) = option_map toLowerCase (old r') /\
  option_map toLowerCase (new r) = option_map toLowerCase (new r') /\
  option_map (map toLowerCase) (old_lines r)
  = option_map (map toLowerCase) (old_lines r') /\
  option_map (map toLowerCase) (new_lines r)
  = option_map (map toLowerCase) (new_lines r').

(** The number of records of a change type. *)
Definition count_type (t : string) (items : list ChangeRecord) : nat :=
  length (filter (fun c => change_type c =? t) items).






(** What the tally of a section holds under a change type that [n] of its
    records have: nothing for a type no record has and under [__proto__],
    the text of the member and [n] ones under another inherited name, and
    the number [n] otherwise. *)
Definition tallied (k : string) (n : nat) : option tally :=
  match n with
  | O => None
  | S _ =>
      if k =? "__proto__" then None
      else if Obj.inherited k then Some (MemberText k n) else Some (Count n)
  end.

End Props.

(* ================================================================== *)
(** * Part II: properties                                              *)
(* ================================================================== *)

Import JS Presenter Props.

Unset Implicit Arguments.

(** ** Strings *)

Lemma occurs_append c a b :
  occurs c (a ++ b)%string <-> occurs c a \/ occurs c b.
Proof.
  unfold occurs. induction a as [|x a IH]; simpl.
  - tauto.
  - rewrite IH. tauto.
Qed.

Lemma prefix_unit c x rest :
  String.prefix (String c EmptyString) (String x rest) = Ascii.eqb c x.
Proof.
  simpl. destruct (ascii_dec c x) as [->|Hne].
  - rewrite Ascii.eqb_refl. now destruct rest.
  - symmetry. now apply Ascii.eqb_neq.
Qed.

(** With a pattern of one code unit, [replaceAll] works unit by unit. *)
Lemma replaceAll_unit_cons c rep x s :
  replaceAll (String x s) (String c EmptyString) rep =
  if Ascii.eqb c x then (rep ++ replaceAll s (String c EmptyString) rep)%string
  else String x (replaceAll s (String c EmptyString) rep).
Proof.
  unfold replaceAll. cbn [replaceAll_from]. rewrite prefix_unit.
  destruct (Ascii.eqb c x); reflexivity.
Qed.

Lemma replaceAll_unit_nil c rep :
  replaceAll EmptyString (String c EmptyString) rep = EmptyString.
Proof. reflexivity. Qed.

(** The replaced unit is gone when the replacement does not bring it back. *)
Lemma replaceAll_removes c rep s :
  ~ occurs c rep -> ~ occurs c (replaceAll s (String c EmptyString) rep).
Proof.
  intros Hrep. induction s as [|x s IH].
  - rewrite replaceAll_unit_nil. intros [].
  - rewrite replaceAll_unit_cons. destruct (Ascii.eqb c x) eqn:E.
    + rewrite occurs_append. tauto.
    + apply Ascii.eqb_neq in E. intros [H|H]; [congruence | now apply IH].
Qed.

(** A unit that is neither in the text nor in the replacement is not in the
    result. *)
Lemma replaceAll_keeps_out d c rep s :
  ~ occurs d rep -> ~ occurs d s ->
  ~ occurs d (replaceAll s (String c EmptyString) rep).
Proof.
  intros Hrep. induction s as [|x s IH]; intros Hs.
  - rewrite replaceAll_unit_nil. intros [].
  - rewrite replaceAll_unit_cons.
    assert (Hx : d <> x) by (intros ->; apply Hs; now left).
    assert (Hs' : ~ occurs d s) by (intros H; apply Hs; now right).
    destruct (Ascii.eqb c x).
    + rewrite occurs_append. intros [H|H]; [tauto | now apply IH].
    + intros [H|H]; [congruence | now apply IH].
Qed.

Lemma not_occurs_closed c s :
  forallb (fun x => negb (Ascii.eqb c x)) (list_ascii_of_string s) = true ->
  ~ occurs c s.
Proof.
  unfold occurs. intros H Hin. rewrite forallb_forall in H.
  specialize (H c Hin). now rewrite Ascii.eqb_refl in H.
Qed.

(** C8.  For every value [s], [undefined] and [null] included, the string
    [escapeHtml s] contains no ['<'] and no ['>']; [undefined] and [null]
    give the empty string. *)
Theorem escapeHtml_no_angle_bracket (s : value) :
  ~ occurs "<"%char (escapeHtml s) /\
  ~ occurs ">"%char (escapeHtml s) /\
  escapeHtml Undefined = "" /\
  escapeHtml Null = "".
Proof.
  assert (Hlt : ~ occurs "<"%char (escapeHtml s)).
  { unfold escapeHtml.
    apply replaceAll_keeps_out.
    - now apply not_occurs_closed.
    - apply replaceAll_removes. now apply not_occurs_closed. }
  repeat split; try reflexivity; trivial.
  unfold escapeHtml.
  apply replaceAll_removes. now apply not_occurs_closed.
Qed.

Lemma includes_unfold text needle :
  includes text needle =
  String.prefix needle text ||
  match text with
  | EmptyString => false
  | String _ rest => includes rest needle
  end.
Proof. destruct text; reflexivity. Qed.

Lemma prefix_split needle : forall text,
  String.prefix needle text = true <-> exists post, text = (needle ++ post)%string.
Proof.
  induction needle as [|a needle IH]; intros text.
  - split; [intros _; now exists text | intros _; now destruct text].
  - destruct text as [|b text]; simpl.
    + split; [discriminate | intros [post H]; discriminate].
    + destruct (ascii_dec a b) as [->|Hne].
      * rewrite IH. split; intros [post H]; exists post; simpl; congruence.
      * split; [discriminate | intros [post H]; simpl in H; congruence].
Qed.

(** [includes] decides the substring relation. *)
Lemma includes_contains text needle :
  includes text needle = true <-> contains text needle.
Proof.
  split.
  - induction text as [|c text IH]; rewrite includes_unfold, orb_true_iff;
      intros [H|H]; try discriminate.
    + apply prefix_split in H as [post ->]. now exists EmptyString, post.
    + apply prefix_split in H as [post ->]. now exists EmptyString, post.
    + destruct (IH H) as (pre & post & ->). now exists (String c pre), post.
  - intros (pre & post & ->). induction pre as [|c pre IH].
    + rewrite includes_unfold, orb_true_iff. left. apply prefix_split. now exists post.
    + rewrite includes_unfold, orb_true_iff. right. exact IH.
Qed.

Lemma contains_empty text : contains text "".
Proof. now exists EmptyString, text. Qed.

Lemma truthy_true s : truthy s = true <-> s <> "".
Proof. unfold truthy. rewrite negb_true_iff. apply String.eqb_neq. Qed.

Lemma truthy_false s : truthy s = false <-> s = "".
Proof. unfold truthy. rewrite negb_false_iff. apply String.eqb_eq. Qed.

(** ** The filter *)

(** A guard [if (t && x !== t) return false] lets [x] through exactly when
    [t] is empty or equal to [x]. *)
Lemma guard_passes t x :
  truthy t && negb (x =? t) = false <-> (t <> "" -> x = t).
Proof.
  rewrite andb_false_iff, truthy_false, negb_false_iff, String.eqb_eq.
  split.
  - intros [-> | ->] H; [now elim H | reflexivity].
  - intros H. destruct (string_dec t "") as [->|Hne]; [now left | right; auto].
Qed.

(** [join] after [filter (Boolean)] puts the texts that are not empty end
    to end with the separator between two of them. *)
Lemma join_filter_spaced texts :
  join " " (filter truthy texts) = spaced texts /\
  (spaced texts = "" -> filter truthy texts = []).
Proof.
  unfold join. induction texts as [|t rest [IH Hnil]]; [now split|].
  cbn [filter spaced]. unfold truthy at 1 3.
  destruct (String.eqb_spec t "") as [->|Ht]; cbn [negb]; [now split|].
  destruct (String.eqb_spec (spaced rest) "") as [E|E].
  - rewrite (Hnil E). split; [reflexivity|]. intros H. now elim Ht.
  - split.
    + cbn [String.concat].
      destruct (filter truthy rest) as [|u us] eqn:Ef.
      * elim E. now rewrite <- IH.
      * now rewrite IH.
    + destruct t; [now elim Ht | discriminate].
Qed.

Lemma join_lines ls : join LF ls = joined_lines ls.
Proof.
  unfold join. induction ls as [|l [|l' rest] IH]; [reflexivity..|].
  cbn [String.concat joined_lines] in *. now rewrite IH.
Qed.

(** The text [applyFilters] searches is the six texts of the
    specification, the empty ones left out, with a space between two. *)
Lemma hay_searched r : hay r = toLowerCase (spaced (searched_fields r)).
Proof.
  unfold hay, searched_fields. rewrite !join_lines.
  rewrite (proj1 (join_filter_spaced _)).
  unfold lines_text, lines_or_empty, field_text.
  now destruct (old_lines r), (new_lines r).
Qed.

(** The callback of the filter decides [selected]. *)
Lemma keep_selected search tf cf r :
  keep (trim (toLowerCase search)) tf cf r = true <-> selected search tf cf r.
Proof.
  unfold keep, selected, selected_in. rewrite <- hay_searched.
  rewrite <- (guard_passes tf), <- (guard_passes cf).
  destruct (truthy tf && negb (change_type r =? tf)).
  { split; [discriminate | intros (H & _); discriminate]. }
  destruct (truthy cf && negb (context r =? cf)).
  { split; [discriminate | intros (_ & H & _); discriminate]. }
  destruct (truthy (trim (toLowerCase search))) eqn:Eq; simpl.
  - rewrite includes_contains. apply truthy_true in Eq.
    split; [now auto | intros (_ & _ & H)].
    apply H. intros ->. now apply Eq.
  - apply truthy_false in Eq. rewrite Eq.
    split; [intros _ | reflexivity].
    repeat split. intros _. apply contains_empty.
Qed.

(** The callback does not read the line numbers. *)
Lemma keep_line_numbers q tf cf lo ln r :
  keep q tf cf (with_line_numbers lo ln r) = keep q tf cf r.
Proof. reflexivity. Qed.

(** ** What the rendering functions write *)

(** [renderFiles] writes [CURRENT_RENDERED] and the files element, or
    throws before writing anything. *)
Lemma renderFiles_run changes st :
  (exists e, groupBy changes file = Throw e /\
             renderFiles changes st = (Throw e, st)) \/
  (exists groups, groupBy changes file = Return groups /\
     renderFiles changes st =
     (Return tt,
      set_files (snd (render_sections groups (sort (Obj.keys groups)) 0 []))
                (fst (render_sections groups (sort (Obj.keys groups)) 0 []))
                st)).
Proof.
  unfold renderFiles, bind, lift. destruct (groupBy changes file) as [groups|e].
  - right. exists groups. split; [reflexivity|].
    now destruct (render_sections groups (sort (Obj.keys groups)) 0 []).
  - left. now exists e.
Qed.

(** [updatePage] writes [PAGE], [CURRENT_RENDERED], the files element and
    the pager, and nothing else. *)
Lemma updatePage_run st :
  exists o rendered' files' text' prev' next',
    updatePage st =
    (o, mkState (DATA st) (LAST_FILTERED st) (page (computePage st)) (PAGE_SIZE st)
                rendered' (q st) (typeFilter st) (ctxFilter st) (pasteArea st)
                (summary st) files' text' prev' next'
                (pasteDialog_open st) (loadingEl st) (alerts st)).
Proof.
  cbv [updatePage bind modify].
  set (st1 := set_PAGE (page (computePage st)) st).
  destruct (renderFiles_run (pageItems (computePage st)) st1)
    as [(e & _ & ->) | (groups & _ & ->)].
  - now eexists _, _, _, _, _, _.
  - unfold renderPager, modify. now eexists _, _, _, _, _, _.
Qed.

(** [applyFilters] writes [LAST_FILTERED], then what [renderSummary] and
    [updatePage] write. *)
Lemma applyFilters_run st :
  exists o page' rendered' summary' files' text' prev' next',
    applyFilters st =
    (o, mkState (DATA st)
                (filter (keep (trim (toLowerCase (q st))) (typeFilter st) (ctxFilter st))
                        (DATA st))
                page' (PAGE_SIZE st)
                rendered' (q st) (typeFilter st) (ctxFilter st) (pasteArea st)
                summary' files' text' prev' next'
                (pasteDialog_open st) (loadingEl st) (alerts st)).
Proof.
  cbv [applyFilters bind modify renderSummary].
  match goal with |- context [updatePage ?s] =>
    destruct (updatePage_run s) as (o & r & f & t & p & n & ->) end.
  now eexists _, _, _, _, _, _, _, _.
Qed.

(** C1, amended.  Whatever the dataset and the filter controls,
    [applyFilters] leaves in [LAST_FILTERED] the records of [DATA], in
    order, that the callback keeps, and these are exactly the records such
    that: a selected change type equals [change_type]; a selected context
    equals [context]; a non-empty search string, lower-cased and trimmed,
    occurs in the lower-cased text made of [file], [property], [old], [new]
    and the joined [old_lines] and [new_lines], where the texts that are
    empty are left out and one space stands between two of the others.
    The line numbers, the only other fields, are not read. *)
Theorem applyFilters_selects (st : state) :
  let st' := snd (applyFilters st) in
  let kept := keep (trim (toLowerCase (q st))) (typeFilter st) (ctxFilter st) in
  DATA st' = DATA st /\
  LAST_FILTERED st' = filter kept (DATA st) /\
  (forall r, kept r = true <-> selected (q st) (typeFilter st) (ctxFilter st) r) /\
  (forall r, In r (LAST_FILTERED st') <->
             In r (DATA st) /\ selected (q st) (typeFilter st) (ctxFilter st) r) /\
  (forall lo ln r, kept (with_line_numbers lo ln r) = kept r) /\
  (forall r, hay r = toLowerCase (spaced (searched_fields r))).
Proof.
  intros st' kept. subst st'.
  destruct (applyFilters_run st) as (o & p & r & s & f & t & pp & pn & ->).
  cbn [snd DATA LAST_FILTERED].
  split; [reflexivity|]. split; [reflexivity|].
  split; [intros r0; apply keep_selected|].
  split; [|split; [reflexivity | apply hay_searched]].
  intros r0. rewrite filter_In. fold kept.
  now rewrite <- keep_selected.
Qed.

(** C1 as stated fails: the search is not made in the plain concatenation
    of the fields.  The search [mdtitle] occurs in the concatenation of the
    file name [README.md] and the property [title], and the record is
    dropped, because the code puts a space between the two. *)
Lemma search_does_not_cross_fields :
  let r := mkChange "README.md" (Some "title") (Some "a") (Some "b")
                    None (Some 1%Z) "kv" None None "replace" in
  let st := set_q "mdtitle" (set_DATA [r] initial) in
  In r (DATA st) /\
  selected_as_stated (q st) (typeFilter st) (ctxFilter st) r /\
  hay r = "readme.md title a b" /\
  LAST_FILTERED (snd (applyFilters st)) = [].
Proof.
  intros r st. split; [now left|]. split; [|split; reflexivity].
  unfold selected_as_stated, selected_in. cbn [typeFilter ctxFilter q st set_q].
  split; [intros H; now elim H|]. split; [intros H; now elim H|].
  intros _. exists "readme.", "ab". reflexivity.
Qed.

(** ** Paging *)

Open Scope Z_scope.

(** [ceil_div a b] is the least integer [c] with [a <= c * b]. *)
Lemma ceil_div_spec a b :
  0 < b -> (ceil_div a b - 1) * b < a <= ceil_div a b * b.
Proof.
  intros Hb. unfold ceil_div.
  pose proof (Z.div_mod (- a) b) as Hdm.
  pose proof (Z.mod_pos_bound (- a) b Hb) as Hm.
  nia.
Qed.

(** Between bounds in range, [slice] is [skipn] then [firstn]. *)
Lemma slice_in_range {A : Type} (l : list A) start stop :
  0 <= start <= stop -> stop <= Z.of_nat (length l) ->
  slice l start stop = firstn (Z.to_nat (stop - start)) (skipn (Z.to_nat start) l).
Proof.
  intros H1 H2. unfold slice.
  destruct (Z.ltb_spec start 0); [lia|].
  destruct (Z.ltb_spec stop 0); [lia|].
  now rewrite !Z.min_l by lia.
Qed.

(** The bounds [computePage] returns, from the three inputs it reads. *)
Lemma computePage_bounds st :
  (PAGE_SIZE st = All \/ exists n, PAGE_SIZE st = Rows n /\ 0 < n) ->
  1 <= totalPages (computePage st) /\
  1 <= page (computePage st) <= totalPages (computePage st) /\
  0 <= start (computePage st) <= stop (computePage st) /\
  stop (computePage st) <= total (computePage st) /\
  total (computePage st) = Z.of_nat (length (LAST_FILTERED st)).
Proof.
  intros Hsize. unfold computePage.
  cbn [totalPages page start stop total].
  set (n := Z.of_nat (length (LAST_FILTERED st))).
  assert (Hn : 0 <= n) by (subst n; lia).
  set (sz := match PAGE_SIZE st with All => n | Rows k => k end).
  assert (Hsz : sz = 0 /\ n = 0 \/ 0 < sz).
  { subst sz. destruct Hsize as [-> | (k & -> & Hk)]; lia. }
  destruct (Z.eqb_spec sz 0) as [E|E].
  - destruct Hsz as [[_ Hz]|Hz]; lia.
  - destruct Hsz as [[Hz _]|Hz]; [lia|].
    pose proof (ceil_div_spec n sz Hz) as Hc.
    repeat split; try lia; nia.
Qed.

(** [totalPages] reads the filtered list and the page size only. *)
Lemma totalPages_frame st st' :
  LAST_FILTERED st' = LAST_FILTERED st -> PAGE_SIZE st' = PAGE_SIZE st ->
  totalPages (computePage st') = totalPages (computePage st).
Proof.
  intros H1 H2. unfold computePage. cbn [totalPages]. now rewrite H1, H2.
Qed.



Close Scope Z_scope.

(** ** Loading *)

Lemma bind_modify {B : Type} (f : state -> state) (k : M B) st :
  bind (modify f) (fun _ => k) st = k (f st).
Proof. reflexivity. Qed.

Lemma bind_returns {A B : Type} (c : M A) (k : A -> M B) a st st' :
  c st = (Return a, st') -> bind c k st = k a st'.
Proof. unfold bind. now intros ->. Qed.

Section LoadingFacts.

Variable JSON_parse : string -> outcome json.

(** A text that is not a JSON array makes [parse_array] throw, with the
    state untouched. *)
Lemma parse_array_rejects text msg st :
  rejection (JSON_parse text) = Some msg ->
  exists e, parse_array JSON_parse text st = (Throw e, st) /\
            msg = ("Invalid JSON: " ++ message e)%string.
Proof.
  cbv [parse_array bind lift rejection].
  destruct (JSON_parse text) as [[records|]|e]; intros H;
    inversion H; subst; eexists; split; reflexivity.
Qed.

Lemma parse_array_accepts text records st :
  JSON_parse text = Return (ArrayRoot records) ->
  parse_array JSON_parse text st = (Return records, st).
Proof. cbv [parse_array bind lift]. now intros ->. Qed.

(** The body common to the three handlers, on a rejected text. *)
Lemma load_rejects text msg st (between : M unit) :
  rejection (JSON_parse text) = Some msg ->
  try_catch
    (parsed <- parse_array JSON_parse text ;;
     modify (set_DATA parsed) ;; between)
    invalid_json st
  = (Return tt, add_alert msg st).
Proof.
  intros H. destruct (parse_array_rejects text msg st H) as (e & He & ->).
  cbv [try_catch bind]. rewrite He. reflexivity.
Qed.

Lemma same_view_add_alert msg st : rejected msg st (add_alert msg st).
Proof. now repeat split. Qed.

(** C2.  On each of the three input paths, a text that does not parse as
    JSON, or whose root is not an array, is answered by one alert, and the
    state is otherwise as before: [DATA] and the rendered view are
    unchanged.  (The drop handler also removes its loading indicator, and
    alerts without reading the text of a file of another media type.) *)
Theorem invalid_load_is_rejected (text msg : string) (st : state) :
  rejection (JSON_parse text) = Some msg ->
  (fileInput_change JSON_parse (Some text) st = (Return tt, add_alert msg st)
   /\ rejected msg st (snd (fileInput_change JSON_parse (Some text) st)))
  /\
  (pasteArea st = text ->
   pasteApply_click JSON_parse st = (Return tt, add_alert msg st)
   /\ rejected msg st (snd (pasteApply_click JSON_parse st)))
  /\
  (forall type,
     window_drop JSON_parse (Some (type, text)) st =
     (Return tt,
      if readable type
      then set_loadingEl false (add_alert msg (set_loadingEl true st))
      else add_alert "Please drop a JSON file." st)
     /\ rejected (if readable type then msg else "Please drop a JSON file.")
                 st (snd (window_drop JSON_parse (Some (type, text)) st))).
Proof.
  intros H.
  assert (Hfile : fileInput_change JSON_parse (Some text) st
                  = (Return tt, add_alert msg st)).
  { cbn [fileInput_change]. unfold fileInput_onload. now apply load_rejects. }
  assert (Hpaste : pasteArea st = text ->
                   pasteApply_click JSON_parse st = (Return tt, add_alert msg st)).
  { intros Htext. unfold pasteApply_click.
    destruct (parse_array_rejects (pasteArea st) msg st) as (e & He & ->);
      [now rewrite Htext|].
    cbv [try_catch bind]. rewrite He. reflexivity. }
  split; [|split].
  - rewrite Hfile. split; [reflexivity | apply same_view_add_alert].
  - intros Htext. rewrite (Hpaste Htext).
    split; [reflexivity | apply same_view_add_alert].
  - intros type. cbn [window_drop]. unfold readable.
    destruct (includes type "json" || includes type "text"); cbn [negb].
    + rewrite bind_modify.
      rewrite (bind_returns _ _ tt _ _
                 (load_rejects text msg (set_loadingEl true st) applyFilters H)).
      split; [reflexivity | now repeat split].
    + split; [reflexivity | now repeat split].
Qed.

(** The body common to the three handlers, on an array: [DATA] is the
    array and [LAST_FILTERED] its filtering, whether or not the rendering
    that follows throws. *)
Lemma load_accepts text records st (between : M unit) :
  JSON_parse text = Return (ArrayRoot records) ->
  (forall s, exists s', between s = (Return tt, s') /\
                        DATA s' = DATA s /\ q s' = q s /\
                        typeFilter s' = typeFilter s /\ ctxFilter s' = ctxFilter s) ->
  let st' :=
    snd (try_catch
           (parsed <- parse_array JSON_parse text ;;
            modify (set_DATA parsed) ;; between ;; applyFilters)
           invalid_json st) in
  DATA st' = records /\
  LAST_FILTERED st' =
    filter (keep (trim (toLowerCase (q st))) (typeFilter st) (ctxFilter st)) records.
Proof.
  intros Hparse Hbetween.
  cbv [try_catch bind modify]. rewrite (parse_array_accepts text records st Hparse).
  destruct (Hbetween (set_DATA records st)) as (s' & -> & HD & Hq & Ht & Hc).
  destruct (applyFilters_run s') as (o & p & r & sm & f & t & pp & pn & ->).
  rewrite HD, Hq, Ht, Hc. cbn [set_DATA DATA q typeFilter ctxFilter].
  destruct o as [[]|e]; now cbn.
Qed.

(** The [catch] block of the handlers always completes. *)
Lemma try_invalid_json_returns (body : M unit) st :
  exists s', try_catch body invalid_json st = (Return tt, s').
Proof.
  unfold try_catch. destruct (body st) as [[[]|e] s']; eexists; reflexivity.
Qed.

Lemma load_rejects_keeps text msg st (between : M unit) :
  rejection (JSON_parse text) = Some msg ->
  let st' :=
    snd (try_catch
           (parsed <- parse_array JSON_parse text ;;
            modify (set_DATA parsed) ;; between)
           invalid_json st) in
  DATA st' = DATA st /\ LAST_FILTERED st' = LAST_FILTERED st.
Proof.
  intros H. cbv zeta. now rewrite (load_rejects text msg st between H).
Qed.

(** The effect of the common body, whatever the text. *)
Lemma load_effect text st (between : M unit) :
  (forall s, exists s', between s = (Return tt, s') /\
                        DATA s' = DATA s /\ q s' = q s /\
                        typeFilter s' = typeFilter s /\ ctxFilter s' = ctxFilter s) ->
  loaded (JSON_parse text) st
         (snd (try_catch
                 (parsed <- parse_array JSON_parse text ;;
                  modify (set_DATA parsed) ;; between ;; applyFilters)
                 invalid_json st)).
Proof.
  intros Hbetween. unfold loaded.
  destruct (JSON_parse text) as [[records|]|e] eqn:E.
  - now apply load_accepts.
  - apply load_rejects_keeps with (msg := "Invalid JSON: Root must be an array").
    now rewrite E.
  - apply load_rejects_keeps with (msg := ("Invalid JSON: " ++ message e)%string).
    now rewrite E.
Qed.

Lemma ret_between (s : state) :
  exists s', ret tt s = (Return tt, s') /\
             DATA s' = DATA s /\ q s' = q s /\
             typeFilter s' = typeFilter s /\ ctxFilter s' = ctxFilter s.
Proof. now exists s. Qed.

Lemma close_between (s : state) :
  exists s', modify (set_pasteDialog_open false) s = (Return tt, s') /\
             DATA s' = DATA s /\ q s' = q s /\
             typeFilter s' = typeFilter s /\ ctxFilter s' = ctxFilter s.
Proof. now eexists. Qed.

(** C3.  On each input path, once the text has been read, [DATA] becomes
    the parsed value when the text parses as JSON with an array at the
    root, and [LAST_FILTERED] is then the filtering of the new dataset by
    the current controls; with any other text [DATA] stays as it was.
    (The drop handler reads the text of a file of a readable media type.) *)
Theorem load_replaces_iff_array (text : string) (st : state) :
  loaded (JSON_parse text) st (snd (fileInput_change JSON_parse (Some text) st))
  /\
  loaded (JSON_parse (pasteArea st)) st (snd (pasteApply_click JSON_parse st))
  /\
  (forall type,
     if readable type
     then loaded (JSON_parse text) st
                 (snd (window_drop JSON_parse (Some (type, text)) st))
     else DATA (snd (window_drop JSON_parse (Some (type, text)) st)) = DATA st).
Proof.
  split; [|split].
  - exact (load_effect text st (ret tt) ret_between).
  - exact (load_effect (pasteArea st) st (modify (set_pasteDialog_open false))
                       close_between).
  - intros type. cbn [window_drop]. unfold readable.
    destruct (includes type "json" || includes type "text"); cbn [negb];
      [|reflexivity].
    rewrite bind_modify.
    pose proof (load_effect text (set_loadingEl true st) (ret tt) ret_between) as H.
    change (loaded (JSON_parse text) st
              (snd (fileInput_onload JSON_parse text (set_loadingEl true st)))) in H.
    fold (fileInput_onload JSON_parse text).
    destruct (try_invalid_json_returns
                (parsed <- parse_array JSON_parse text ;;
                 modify (set_DATA parsed) ;; applyFilters)
                (set_loadingEl true st)) as (s' & E).
    fold (fileInput_onload JSON_parse text) in E.
    rewrite E in H. rewrite (bind_returns _ _ tt _ _ E).
    exact H.
Qed.

End LoadingFacts.

(** An object at the root, on the three paths, from the initial state. *)
Lemma invalid_load_is_rejected_witness :
  let msg := "Invalid JSON: Root must be an array" in
  rejection (parse_example "{}") = Some msg /\
  ((fileInput_change parse_example (Some "{}") initial
    = (Return tt, add_alert msg initial)
    /\ rejected msg initial (snd (fileInput_change parse_example (Some "{}") initial)))
   /\
   (pasteArea initial = "{}" ->
    pasteApply_click parse_example initial = (Return tt, add_alert msg initial)
    /\ rejected msg initial (snd (pasteApply_click parse_example initial)))
   /\
   (forall type,
      window_drop parse_example (Some (type, "{}")) initial =
      (Return tt,
       if readable type
       then set_loadingEl false (add_alert msg (set_loadingEl true initial))
       else add_alert "Please drop a JSON file." initial)
      /\ rejected (if readable type then msg else "Please drop a JSON file.")
                  initial (snd (window_drop parse_example (Some (type, "{}")) initial)))).
Proof.
  intros msg.
  assert (H : rejection (parse_example "{}") = Some msg) by reflexivity.
  split; [exact H | exact (invalid_load_is_rejected parse_example "{}" msg initial H)].
Defined.

(** The sample, loaded from the initial state: three sections in
    ascending order of file name, all three records rendered. *)
Example loadSample_sections :
  map section_title (files (snd (loadSample_click initial)))
  = [ "Assignment Report/report.json";
      "Scripts/Powershell/Script Data/intunecd_appreg.ps1";
      "Settings Catalog/Baseline - W365_mdm.json" ]
  /\ pageInfo (snd (loadSample_click initial)) = Range 1 3 3 1 1
  /\ summary (snd (loadSample_click initial))
     = [ ("Total changes", 3%nat); ("Replacements", 2%nat); ("Insertions", 0%nat);
         ("Deletions", 0%nat); ("KV / Plist pairs", 1%nat); ("Raw blocks", 2%nat) ].
Proof. repeat split. Qed.

(** The search box holding [IntuneCD] between spaces: only the first record
    of the sample has it, in its lines. *)
Example search_sample :
  filter (keep (trim (toLowerCase "  IntuneCD ")) "" "") sample
  = firstn 1 sample.
Proof. reflexivity. Qed.

(** The empty array replaces the sample; the empty text does not. *)
Example load_empty_array :
  DATA (snd (fileInput_change parse_example (Some "[]")
                              (snd (loadSample_click initial)))) = []
  /\ DATA (snd (fileInput_change parse_example (Some "")
                                 (snd (loadSample_click initial)))) = sample.
Proof. split; reflexivity. Qed.

(** ** The Extractor *)

Import Extractor Schema.

Lemma line_diff_same l : line_diff l l = map Keep l.
Proof.
  induction l as [|x l IH]; [reflexivity|].
  cbn. rewrite String.eqb_refl. now rewrite IH.
Qed.

Lemma hunks_unchanged l : forall i j, hunks (map Keep l) i j None = [].
Proof. induction l as [|x l IH]; intros i j; cbn; [reflexivity | apply IH]. Qed.

Lemma block_diff_same path content : block_diff path content content = [].
Proof. unfold block_diff. now rewrite line_diff_same, hunks_unchanged. Qed.

Lemma flat_map_empty {A B : Type} (f : A -> list B) l :
  (forall x, In x l -> f x = []) -> flat_map f l = [].
Proof.
  induction l as [|x l IH]; intros H; cbn; [reflexivity|].
  rewrite (H x) by now left. apply IH. intros y Hy. apply H. now right.
Qed.

Lemma kv_diff_same path fmt es : kv_diff path fmt es es = [].
Proof.
  unfold kv_diff.
  rewrite !flat_map_empty; [reflexivity | |]; intros k _;
    destruct (lookup k es); try reflexivity.
  now rewrite String.eqb_refl.
Qed.







(** C5.  For every file, when the old content and the new content are the
    same string, the Extractor emits no record: whatever the format
    detected, the parsers and the position function. *)
Theorem extract_same_content
    (recognize : string -> option kv_format)
    (parse : kv_format -> string -> option (list entry))
    (position : string -> option Z)
    (path content : string) :
  extract recognize parse position path (Some content) (Some content) = [].
Proof.
  unfold extract.
  destruct (recognize path) as [fmt|]; [|apply block_diff_same].
  destruct (parse fmt content) as [es|]; [|apply block_diff_same].
  apply kv_diff_same.
Qed.

(** The four scenarios of the specification (section 8). *)

Example scenario_1 :
  extract (fun _ => None) (fun _ _ => None) (fun _ => None) "app.conf"
          (Some ("a=1" ++ LF ++ "b=2" ++ LF)%string)
          (Some ("a=1" ++ LF ++ "b=3" ++ LF)%string)
  = [ mkChange "app.conf" None None None (Some 2%Z) (Some 2%Z) "block"
               (Some ["b=2"]) (Some ["b=3"]) "replace" ].
Proof. reflexivity. Qed.

Example scenario_2 :
  kv_diff "settings.json" JsonLike
          [mkEntry "timeout" "30" 3] [mkEntry "timeout" "60" 3]
  = [ mkChange "settings.json" (Some "timeout") (Some "30") (Some "60")
               (Some 3%Z) (Some 3%Z) "kv" None None "replace" ].
Proof. reflexivity. Qed.

Example scenario_3 :
  extract (fun _ => None) (fun _ _ => None) (fun _ => Some 1%Z) "report.json"
          (Some "{}") None
  = [ mkChange "report.json" None None None (Some 1%Z) None "block"
               (Some []) (Some []) "file-deleted" ].
Proof. reflexivity. Qed.

Example scenario_4 :
  kv_diff "settings.json" JsonLike
          [mkEntry "timeout" "30" 3]
          [mkEntry "timeout" "30" 3; mkEntry "retries" "3" 4]
  = [ mkChange "settings.json" (Some "retries") None (Some "3")
               None (Some 4%Z) "kv" None None "insert" ].
Proof. reflexivity. Qed.

(** ** The renderer and the field pairs *)









(** ** Grouping *)

Lemma own_set {V : Type} (m : Obj.t V) k v k' :
  Obj.own (Obj.set m k v) k' = if k =? k' then Some v else Obj.own m k'.
Proof.
  induction m as [|[k0 v0] m IH]; cbn.
  - reflexivity.
  - destruct (k0 =? k) eqn:E0; cbn.
    + apply String.eqb_eq in E0. subst k0. now destruct (k =? k').
    + rewrite IH. destruct (k0 =? k') eqn:E1; [|reflexivity].
      apply String.eqb_eq in E1. subst k'.
      now rewrite String.eqb_sym, E0.
Qed.

Lemma grown_cons {A : Type} (key : A -> string) x rest before k :
  grown key (x :: rest) before k =
  grown key rest
        (if key x =? k
         then Some (match before with Some g => g ++ [x] | None => [x] end)
         else before) k.
Proof.
  unfold grown. cbn [filter]. destruct (key x =? k); [|reflexivity].
  destruct before as [g|]; [now rewrite <- app_assoc | reflexivity].
Qed.

(** As long as no key is an inherited name, [groupBy] returns, and the own
    property under each key is the group that key must get. *)
Lemma reduce_groupBy_step {A : Type} (key : A -> string) (arr : list A) :
  (forall x, In x arr -> Obj.inherited (key x) = false) ->
  forall m0, exists m,
    reduce (groupBy_step key) arr m0 = Return m /\
    forall k, Obj.own m k = grown key arr (Obj.own m0 k) k.
Proof.
  induction arr as [|x rest IH]; intros Hkeys m0.
  - exists m0. split; [reflexivity|]. intros k. unfold grown. cbn.
    destruct (Obj.own m0 k); [now rewrite app_nil_r | reflexivity].
  - assert (Hx : Obj.inherited (key x) = false) by (apply Hkeys; now left).
    assert (Hrest : forall y, In y rest -> Obj.inherited (key y) = false)
      by (intros y Hy; apply Hkeys; now right).
    cbn [reduce]. unfold groupBy_step at 1, Obj.get.
    destruct (Obj.own m0 (key x)) as [g|] eqn:Eown; [|rewrite Hx].
    + destruct (IH Hrest (Obj.set m0 (key x) (g ++ [x]))) as (m & -> & Hm).
      exists m. split; [reflexivity|]. intros k.
      rewrite Hm, own_set, grown_cons.
      destruct (key x =? k) eqn:E; [|reflexivity].
      apply String.eqb_eq in E. subst k. now rewrite Eown.
    + destruct (IH Hrest (Obj.set m0 (key x) [x])) as (m & -> & Hm).
      exists m. split; [reflexivity|]. intros k.
      rewrite Hm, own_set, grown_cons.
      destruct (key x =? k) eqn:E; [|reflexivity].
      apply String.eqb_eq in E. subst k. now rewrite Eown.
Qed.

(** Off the inherited names [groupBy] partitions the array: the group under
    [k] is made of the elements whose key is [k], in the order of the array,
    and there is no group under a key that no element has. *)
Lemma groupBy_partitions {A : Type} (arr : list A) (key : A -> string) :
  (forall x, In x arr -> Obj.inherited (key x) = false) ->
  exists m,
    groupBy arr key = Return m /\
    forall k, Obj.own m k =
              match filter (fun x => key x =? k) arr with
              | [] => None
              | g => Some g
              end.
Proof.
  intros Hkeys. destruct (reduce_groupBy_step key arr Hkeys []) as (m & Hm & Hown).
  exists m. split; [exact Hm|]. intros k. now rewrite Hown.
Qed.

(** An element whose key is an inherited name makes [groupBy] throw. *)
Lemma reduce_groupBy_throws {A : Type} (key : A -> string) (arr : list A) x :
  In x arr -> Obj.inherited (key x) = true ->
  forall m0,
    (forall k, Obj.inherited k = true -> Obj.own m0 k = None) ->
    reduce (groupBy_step key) arr m0 =
    Throw (TypeError (not_a_function "m[x[key]].push")).
Proof.
  intros Hin Hx. induction arr as [|y rest IH]; [elim Hin|]. intros m0 Hm0.
  cbn [reduce]. unfold groupBy_step at 1, Obj.get.
  destruct (Obj.inherited (key y)) eqn:Ey.
  - now rewrite (Hm0 _ Ey).
  - assert (Hrest : In x rest) by (destruct Hin as [->|H]; [congruence | exact H]).
    assert (Hset : forall v k, Obj.inherited k = true ->
                               Obj.own (Obj.set m0 (key y) v) k = None).
    { intros v k Hk. rewrite own_set. destruct (key y =? k) eqn:E; [|now apply Hm0].
      apply String.eqb_eq in E. congruence. }
    destruct (Obj.own m0 (key y)); apply (IH Hrest); apply Hset.
Qed.

Lemma groupBy_throws {A : Type} (arr : list A) (key : A -> string) x :
  In x arr -> Obj.inherited (key x) = true ->
  groupBy arr key = Throw (TypeError (not_a_function "m[x[key]].push")).
Proof.
  intros Hin Hx. apply (reduce_groupBy_throws key arr x Hin Hx). reflexivity.
Qed.

(** ** Sorting and keys *)

Lemma sort_insert_Sorted x l :
  Sorted ascending l -> Sorted ascending (sort_insert x l).
Proof.
  induction 1 as [|y l Hl IH Hhd]; cbn.
  - repeat constructor.
  - destruct (String.leb x y) eqn:E.
    + repeat constructor; assumption.
    + constructor; [exact IH|].
      assert (Hyx : ascending y x).
      { destruct (String.leb_total x y) as [H|H]; [congruence | exact H]. }
      destruct Hhd as [|z l' Hz]; cbn; [now constructor|].
      destruct (String.leb x z); now constructor.
Qed.

Lemma sort_Sorted l : Sorted ascending (sort l).
Proof.
  induction l as [|x l IH]; cbn; [constructor | now apply sort_insert_Sorted].
Qed.

Lemma ascending_trans a : forall b c,
  ascending a b -> ascending b c -> ascending a c.
Proof.
  unfold ascending, String.leb.
  induction a as [|x a IH]; intros [|y b] [|z c]; cbn; try easy.
  unfold Ascii.compare.
  destruct (N.compare_spec (N_of_ascii x) (N_of_ascii y)) as [Exy|Lxy|Gxy];
    destruct (N.compare_spec (N_of_ascii y) (N_of_ascii z)) as [Eyz|Lyz|Gyz];
    destruct (N.compare_spec (N_of_ascii x) (N_of_ascii z)) as [Exz|Lxz|Gxz];
    try easy; try lia.
  apply IH.
Qed.

(** Every name of the sorted array is below all the names after it. *)
Lemma sort_StronglySorted l : StronglySorted ascending (sort l).
Proof.
  apply Sorted_StronglySorted; [|apply sort_Sorted].
  intros a b c. apply ascending_trans.
Qed.

Lemma sort_insert_Permutation x l : Permutation (sort_insert x l) (x :: l).
Proof.
  induction l as [|y l IH]; cbn; [reflexivity|].
  destruct (String.leb x y); [reflexivity|].
  rewrite IH. apply perm_swap.
Qed.

Lemma sort_Permutation l : Permutation (sort l) l.
Proof.
  induction l as [|x l IH]; cbn; [reflexivity|].
  now rewrite sort_insert_Permutation, IH.
Qed.

Lemma insert_index_Permutation e l :
  Permutation (Obj.insert_index e l) (e :: l).
Proof.
  induction l as [|e' l IH]; cbn; [reflexivity|].
  destruct (fst e <=? fst e')%N; [reflexivity|].
  rewrite IH. apply perm_swap.
Qed.

(** [Object.keys] lists the own property names, each once. *)
Lemma keys_Permutation {V : Type} (m : Obj.t V) :
  Permutation (Obj.keys m) (map fst m).
Proof.
  unfold Obj.keys. induction m as [|[k v] m IH]; cbn; [reflexivity|].
  destruct (Obj.array_index k) as [n|].
  - rewrite (Permutation_map snd (insert_index_Permutation (n, k) _)). cbn.
    now rewrite IH.
  - rewrite <- Permutation_middle. now rewrite IH.
Qed.

Lemma own_None {V : Type} (m : Obj.t V) k :
  Obj.own m k = None <-> ~ In k (map fst m).
Proof.
  induction m as [|[k0 v0] m IH]; cbn.
  - tauto.
  - destruct (String.eqb_spec k0 k) as [->|Hne].
    + split; [discriminate | intros H; elim H; now left].
    + rewrite IH. tauto.
Qed.

Lemma set_names {V : Type} (m : Obj.t V) k v :
  map fst (Obj.set m k v) =
  match Obj.own m k with
  | Some _ => map fst m
  | None => map fst m ++ [k]
  end.
Proof.
  induction m as [|[k0 v0] m IH]; cbn; [reflexivity|].
  destruct (k0 =? k); cbn; [reflexivity|].
  rewrite IH. now destruct (Obj.own m k).
Qed.

Lemma set_NoDup {V : Type} (m : Obj.t V) k v :
  NoDup (map fst m) -> NoDup (map fst (Obj.set m k v)).
Proof.
  intros H. rewrite set_names. destruct (Obj.own m k) eqn:E; [exact H|].
  apply own_None in E.
  apply (Permutation_NoDup (l := k :: map fst m)).
  - apply Permutation_cons_append.
  - now constructor.
Qed.

Lemma reduce_groupBy_NoDup {A : Type} (key : A -> string) (arr : list A) :
  forall m0 m,
    NoDup (map fst m0) -> reduce (groupBy_step key) arr m0 = Return m ->
    NoDup (map fst m).
Proof.
  induction arr as [|x rest IH]; intros m0 m H0; cbn [reduce].
  - now intros [= <-].
  - unfold groupBy_step at 1.
    destruct (Obj.get m0 (key x)); try discriminate;
      apply IH; now apply set_NoDup.
Qed.

(** C10.  [groupBy] is to partition every array by any key: each element
    in exactly one group, the one under the string form of its key, the
    elements of a group in the order of the array.  It does so as long as no
    key is a name that every plain object inherits; when an element has such
    a key ([constructor], [toString], [__proto__], ...) it throws instead,
    because the accumulator [{}] answers that name with an inherited member
    that has no [push]. *)
Theorem groupBy_partitions_unless_inherited_key
    {A : Type} (arr : list A) (key : A -> string) :
  ((forall x, In x arr -> Obj.inherited (key x) = false) ->
   exists m,
     groupBy arr key = Return m /\
     NoDup (map fst m) /\
     (forall x, In x arr ->
                exists g, Obj.own m (key x) = Some g /\ In x g) /\
     (forall k g, Obj.own m k = Some g ->
                  g = filter (fun x => key x =? k) arr /\ g <> []))
  /\
  (forall x, In x arr -> Obj.inherited (key x) = true ->
             groupBy arr key =
             Throw (TypeError (not_a_function "m[x[key]].push"))).
Proof.
  split.
  - intros Hkeys.
    destruct (groupBy_partitions arr key Hkeys) as (m & Hm & Hown).
    exists m. split; [exact Hm|]. split; [|split].
    + apply (reduce_groupBy_NoDup key arr [] m); [constructor | exact Hm].
    + intros x Hx. rewrite Hown.
      assert (Hin : In x (filter (fun y => key y =? key x) arr)).
      { apply filter_In. split; [exact Hx | apply String.eqb_refl]. }
      destruct (filter (fun y => key y =? key x) arr) as [|y l] eqn:E;
        [elim Hin|].
      exists (y :: l). now split.
    + intros k g Hg. rewrite Hown in Hg.
      destruct (filter (fun x => key x =? k) arr) as [|y l]; [discriminate|].
      injection Hg as <-. now split.
  - intros x Hin Hx. now apply (groupBy_throws arr key x).
Qed.

(** Two records, the second of a file named [constructor]. *)
Lemma groupBy_partitions_unless_inherited_key_witness :
  let readme := mkChange "README.md" None None None None (Some 1%Z) "block"
                         (Some []) (Some ["# GitDiffer"]) "insert" in
  let ctor := mkChange "constructor" None None None (Some 3%Z) (Some 3%Z) "block"
                       (Some ["a"]) (Some ["b"]) "replace" in
  In ctor [readme; ctor] /\ Obj.inherited (file ctor) = true /\
  groupBy [readme; ctor] file =
  Throw (TypeError (not_a_function "m[x[key]].push")).
Proof.
  intros readme ctor.
  assert (Hin : In ctor [readme; ctor]) by (right; left; reflexivity).
  assert (Hkey : Obj.inherited (file ctor) = true) by reflexivity.
  split; [exact Hin|]. split; [exact Hkey|].
  exact (proj2 (groupBy_partitions_unless_inherited_key [readme; ctor] file)
               ctor Hin Hkey).
Defined.

(** ** The files view *)

(** The sections [render_sections] returns: one per name, in the order of
    the names, titled by the escaped name and holding the cards of the group
    of that name; [CURRENT_RENDERED] receives the groups in the same order. *)
Lemma render_sections_spec groups names : forall i rendered,
  map section_title (fst (render_sections groups names i rendered))
  = map (fun f => escapeHtml (Str f)) names
  /\
  length (fst (render_sections groups names i rendered)) = length names
  /\
  flat_map section_items (fst (render_sections groups names i rendered))
  = render_items (flat_map (group_items groups) names) i
  /\
  snd (render_sections groups names i rendered)
  = rendered ++ flat_map (group_items groups) names.
Proof.
  assert (Happ : forall a b i,
            render_items (a ++ b) i = render_items a i ++ render_items b (i + length a)).
  { induction a as [|x a IHa]; intros b i; cbn.
    - now rewrite Nat.add_0_r.
    - rewrite IHa. now rewrite Nat.add_succ_r. }
  induction names as [|f names IH]; intros i rendered; cbn [render_sections].
  - cbn. now rewrite app_nil_r.
  - specialize (IH (i + length (group_items groups f))
                   (rendered ++ group_items groups f)).
    destruct (render_sections groups names _ _) as [sections rendered'].
    cbn [fst snd] in *. destruct IH as (H1 & H2 & H3 & H4).
    cbn [map length flat_map section_title section_items].
    rewrite H1, H2, H3, H4, Happ, <- app_assoc. now repeat split.
Qed.

(** A page without an inherited name among its files is rendered: the names
    of the sections are the file names of the page, each once, in ascending
    order, and the group of a name is made of the records of that file, in
    the order of the page. *)
Lemma renderFiles_groups_sorted changes st :
  (forall c, In c changes -> Obj.inherited (file c) = false) ->
  exists groups names,
    groupBy changes file = Return groups /\
    names = sort (Obj.keys groups) /\
    StronglySorted ascending names /\ NoDup names /\
    (forall f, In f names <-> exists c, In c changes /\ file c = f) /\
    (forall f, In f names ->
               group_items groups f = filter (fun c => file c =? f) changes) /\
    renderFiles changes st =
    (Return tt,
     set_files (snd (render_sections groups names 0 []))
               (fst (render_sections groups names 0 [])) st).
Proof.
  intros Hkeys.
  destruct (groupBy_partitions changes file Hkeys) as (groups & Hg & Hown).
  exists groups, (sort (Obj.keys groups)).
  assert (Hperm : Permutation (sort (Obj.keys groups)) (map fst groups)).
  { now rewrite sort_Permutation, keys_Permutation. }
  assert (Hin : forall f, In f (sort (Obj.keys groups)) <->
                          exists c, In c changes /\ file c = f).
  { intros f.
    assert (Hf' : In f (sort (Obj.keys groups)) <-> In f (map fst groups)).
    { split; apply Permutation_in; [exact Hperm | now symmetry]. }
    rewrite Hf'.
    destruct (in_dec string_dec f (map fst groups)) as [Hf|Hf].
    - split; [intros _ | now intros _].
      destruct (Obj.own groups f) as [g|] eqn:E; [|now apply own_None in E].
      rewrite Hown in E.
      destruct (filter (fun c => file c =? f) changes) as [|c l] eqn:Ef;
        [discriminate|].
      assert (Hc : In c (filter (fun c => file c =? f) changes))
        by (rewrite Ef; now left).
      apply filter_In in Hc as [Hc1 Hc2]. apply String.eqb_eq in Hc2. eauto.
    - split; [contradiction|]. intros (c & Hc & Hfc). exfalso.
      apply own_None in Hf. rewrite Hown in Hf.
      assert (Hc' : In c (filter (fun c => file c =? f) changes)).
      { apply filter_In. split; [exact Hc | now apply String.eqb_eq]. }
      destruct (filter (fun c => file c =? f) changes); [elim Hc' | discriminate]. }
  repeat split.
  - exact Hg.
  - apply sort_StronglySorted.
  - apply (Permutation_NoDup (l := map fst groups)); [now symmetry|].
    apply (reduce_groupBy_NoDup file changes [] groups); [constructor | exact Hg].
  - apply Hin.
  - apply Hin.
  - intros f Hf. unfold group_items. rewrite Hown.
    apply Hin in Hf as (c & Hc & Hfc).
    assert (Hc' : In c (filter (fun c => file c =? f) changes)).
    { apply filter_In. split; [exact Hc | now apply String.eqb_eq]. }
    now destruct (filter (fun c => file c =? f) changes).
  - destruct (renderFiles_run changes st) as [(e & He & _) | (g & He & ->)];
      congruence.
Qed.

(** C4.  A page is to be rendered as one section per file, the sections in
    ascending order of file name whatever the order of the page.  It is, as
    long as no file of the page is named like a member every plain object
    inherits: the section titles are the escaped file names, each once, in
    ascending order, and the cards of the sections are those of the records
    file by file, in the order of the page within a file.  On a page with a
    record of such a file ([toString], [constructor], ...) [groupBy] throws,
    and the files element and [CURRENT_RENDERED] keep what they had. *)
Theorem renderFiles_sections_unless_inherited_name
    (changes : list ChangeRecord) (st : state) :
  ((forall c, In c changes -> Obj.inherited (file c) = false) ->
   exists names,
     StronglySorted ascending names /\ NoDup names /\
     (forall f, In f names <-> exists c, In c changes /\ file c = f) /\
     fst (renderFiles changes st) = Return tt /\
     map section_title (files (snd (renderFiles changes st)))
     = map (fun f => escapeHtml (Str f)) names /\
     flat_map section_items (files (snd (renderFiles changes st)))
     = render_items
         (flat_map (fun f => filter (fun c => file c =? f) changes) names) 0 /\
     CURRENT_RENDERED (snd (renderFiles changes st))
     = flat_map (fun f => filter (fun c => file c =? f) changes) names)
  /\
  (forall c, In c changes -> Obj.inherited (file c) = true ->
             renderFiles changes st =
             (Throw (TypeError (not_a_function "m[x[key]].push")), st)).
Proof.
  split.
  - intros Hkeys.
    destruct (renderFiles_groups_sorted changes st Hkeys)
      as (groups & names & Hg & Hnames & Hsorted & Hnodup & Hin & Hitems & ->).
    exists names.
    destruct (render_sections_spec groups names 0 []) as (H1 & _ & H3 & H4).
    assert (Hflat : flat_map (group_items groups) names
                    = flat_map (fun f => filter (fun c => file c =? f) changes) names).
    { clear - Hitems. induction names as [|f names IH]; [reflexivity|].
      cbn [flat_map]. rewrite (Hitems f) by now left.
      rewrite IH; [reflexivity|]. intros f' Hf'. apply Hitems. now right. }
    cbn [fst snd set_files files CURRENT_RENDERED].
    rewrite H1, H3, H4, Hflat. now repeat split; try apply Hin.
  - intros c Hc Hname. unfold renderFiles, bind, lift.
    now rewrite (groupBy_throws changes file c Hc Hname).
Qed.

(** A page of two records, the second of a file named [toString]. *)
Lemma renderFiles_sections_unless_inherited_name_witness :
  let app := mkChange "src/app.js" None None None (Some 2%Z) (Some 2%Z) "block"
                      (Some ["let a"]) (Some ["let b"]) "replace" in
  let odd := mkChange "toString" None None None None (Some 1%Z) "block"
                      (Some []) (Some ["x"]) "insert" in
  In odd [app; odd] /\ Obj.inherited (file odd) = true /\
  renderFiles [app; odd] initial =
  (Throw (TypeError (not_a_function "m[x[key]].push")), initial).
Proof.
  intros app odd.
  assert (Hin : In odd [app; odd]) by (right; left; reflexivity).
  assert (Hname : Obj.inherited (file odd) = true) by reflexivity.
  split; [exact Hin|]. split; [exact Hname|].
  exact (proj2 (renderFiles_sections_unless_inherited_name [app; odd] initial)
               odd Hin Hname).
Defined.

(* ================================================================== *)
(** * Part III: further properties of the viewer script                *)
(* ================================================================== *)

(** ** Escaping *)

Lemma string_app_assoc (a b c : string) :
  ((a ++ b) ++ c = a ++ (b ++ c))%string.
Proof. induction a as [|x a IH]; cbn; [reflexivity | now rewrite IH]. Qed.

Lemma replaceAll_unit_app c rep a b :
  replaceAll (a ++ b) (String c EmptyString) rep
  = (replaceAll a (String c EmptyString) rep
     ++ replaceAll b (String c EmptyString) rep)%string.
Proof.
  induction a as [|x a IH]; [reflexivity|].
  cbn [String.append]. rewrite !replaceAll_unit_cons, IH.
  destruct (Ascii.eqb c x); [now rewrite string_app_assoc | reflexivity].
Qed.

Lemma escapeHtml_app a b :
  escapeHtml (Str (a ++ b)) = (escapeHtml (Str a) ++ escapeHtml (Str b))%string.
Proof.
  unfold escapeHtml. cbn [nullish toString]. now rewrite !replaceAll_unit_app.
Qed.

Lemma escapeHtml_unit c : escapeHtml (Str (String c EmptyString)) = entity c.
Proof.
  unfold escapeHtml, entity. cbn [nullish toString].
  rewrite replaceAll_unit_cons, replaceAll_unit_nil.
  rewrite (Ascii.eqb_sym c "&"). destruct (Ascii.eqb "&" c) eqn:Eamp.
  - reflexivity.
  - rewrite replaceAll_unit_cons, replaceAll_unit_nil.
    rewrite (Ascii.eqb_sym c "<"). destruct (Ascii.eqb "<" c) eqn:Elt.
    + reflexivity.
    + rewrite replaceAll_unit_cons, replaceAll_unit_nil.
      rewrite (Ascii.eqb_sym c ">"). now destruct (Ascii.eqb ">" c).
Qed.

Lemma escapeHtml_units s : escapeHtml (Str s) = escape_units s.
Proof.
  induction s as [|c s IH]; [reflexivity|].
  change (String c s) with (String c EmptyString ++ s)%string.
  rewrite escapeHtml_app, escapeHtml_unit, IH. reflexivity.
Qed.

Lemma entity_plain c :
  c <> "&"%char -> c <> "<"%char -> c <> ">"%char ->
  entity c = String c EmptyString.
Proof.
  intros H1 H2 H3. unfold entity.
  apply Ascii.eqb_neq in H1, H2, H3. now rewrite H1, H2, H3.
Qed.

Lemma entity_cases c :
  (c = "&"%char /\ entity c = "&amp;") \/
  (c = "<"%char /\ entity c = "&lt;") \/
  (c = ">"%char /\ entity c = "&gt;") \/
  (c <> "&"%char /\ c <> "<"%char /\ c <> ">"%char
   /\ entity c = String c EmptyString).
Proof.
  unfold entity.
  destruct (Ascii.eqb_spec c "&") as [->|H1]; [now left|].
  destruct (Ascii.eqb_spec c "<") as [->|H2]; [now right; left|].
  destruct (Ascii.eqb_spec c ">") as [->|H3]; [now right; right; left|].
  now right; right; right.
Qed.

Lemma escape_units_injective a : forall b,
  escape_units a = escape_units b -> a = b.
Proof.
  induction a as [|x a IH]; intros [|y b]; cbn [escape_units]; intros H.
  - reflexivity.
  - destruct (entity_cases y) as [(_ & E)|[(_ & E)|[(_ & E)|(_ & _ & _ & E)]]];
      rewrite E in H; discriminate.
  - destruct (entity_cases x) as [(_ & E)|[(_ & E)|[(_ & E)|(_ & _ & _ & E)]]];
      rewrite E in H; discriminate.
  - destruct (entity_cases x) as [(Hx & Ex)|[(Hx & Ex)|[(Hx & Ex)|(X1 & X2 & X3 & Ex)]]];
      destruct (entity_cases y) as [(Hy & Ey)|[(Hy & Ey)|[(Hy & Ey)|(Y1 & Y2 & Y3 & Ey)]]];
      rewrite Ex, Ey in H; cbn in H; try discriminate;
      try (injection H as H; f_equal; [congruence | now apply IH]);
      try (injection H as H0 H; congruence).
Qed.

(** X1.  [escapeHtml] rewrites a string unit by unit: each ampersand and
    angle bracket becomes its entity, every other code unit stays, so
    nothing is escaped twice although the three replacements run one after
    the other; a string without those three units is returned as it is, and
    two different strings are never escaped to the same text. *)
Theorem escapeHtml_unit_by_unit (s : string) :
  escapeHtml (Str s) = escape_units s /\
  (~ occurs "&" s -> clean s -> escapeHtml (Str s) = s) /\
  (forall s', escapeHtml (Str s) = escapeHtml (Str s') -> s = s').
Proof.
  assert (H : forall t, escapeHtml (Str t) = escape_units t)
    by apply escapeHtml_units.
  split; [apply H|]. split.
  - intros Hamp [Hlt Hgt]. rewrite H.
    induction s as [|c s IH]; [reflexivity|].
    cbn [escape_units]. rewrite entity_plain.
    + cbn. f_equal. apply IH; intros Hin; [apply Hamp | apply Hlt | apply Hgt];
        now right.
    + intros ->. apply Hamp. now left.
    + intros ->. apply Hlt. now left.
    + intros ->. apply Hgt. now left.
  - intros s'. rewrite !H. apply escape_units_injective.
Qed.

(** A markdown file name has nothing to escape. *)
Lemma escapeHtml_unit_by_unit_witness :
  (~ occurs "&" "README.md" /\ clean "README.md") /\
  escapeHtml (Str "README.md") = "README.md".
Proof.
  assert (Hamp : ~ occurs "&" "README.md") by (now apply not_occurs_closed).
  assert (Hclean : clean "README.md")
    by (split; now apply not_occurs_closed).
  split; [now split|].
  exact (proj1 (proj2 (escapeHtml_unit_by_unit "README.md")) Hamp Hclean).
Defined.

(** ** Escaped markup *)

Lemma escapeHtml_clean v : clean (escapeHtml v).
Proof.
  unfold clean, escapeHtml. split.
  - apply replaceAll_keeps_out; [now apply not_occurs_closed|].
    apply replaceAll_removes. now apply not_occurs_closed.
  - apply replaceAll_removes. now apply not_occurs_closed.
Qed.

Lemma clean_app a b : clean a -> clean b -> clean (a ++ b)%string.
Proof. unfold clean. rewrite !occurs_append. tauto. Qed.

Lemma clean_closed s :
  forallb (fun x => negb (Ascii.eqb "<" x) && negb (Ascii.eqb ">" x))
          (list_ascii_of_string s) = true ->
  clean s.
Proof.
  intros H. rewrite forallb_forall in H.
  split; intros Hin; apply H in Hin; now rewrite Ascii.eqb_refl, ?andb_false_r in Hin.
Qed.

Lemma clean_cons c s :
  c <> "<"%char -> c <> ">"%char -> clean s -> clean (String c s).
Proof.
  intros H1 H2 [H3 H4]. split; intros [H|H]; auto.
Qed.

Lemma clean_join sep xs :
  clean sep -> Forall clean xs -> clean (join sep xs).
Proof.
  intros Hsep H. unfold join. induction H as [|x xs Hx Hxs IH]; cbn.
  - now apply clean_closed.
  - destruct xs as [|y ys]; [exact Hx|].
    apply clean_app; [exact Hx|]. now apply clean_app.
Qed.

Lemma clean_digits d : clean (NilEmpty.string_of_uint d).
Proof.
  induction d; cbn; [now apply clean_closed | ..];
    apply clean_cons; try discriminate; assumption.
Qed.

Lemma clean_number n : clean (number_to_string n).
Proof.
  unfold number_to_string, NilZero.string_of_int, NilZero.string_of_uint.
  destruct (Z.to_int n) as [d|d].
  - destruct d; try apply clean_digits. now apply clean_closed.
  - apply clean_cons; try discriminate.
    destruct d; try apply clean_digits. now apply clean_closed.
Qed.

Lemma clean_line_label ch : clean (line_label ch).
Proof.
  unfold line_label.
  destruct (line_new ch); [apply clean_number|].
  destruct (line_old ch); [apply clean_number | now apply clean_closed].
Qed.

Lemma clean_block mark ls :
  clean mark ->
  Forall clean (cell_text
    (or_dash (join LF (map (fun l => (mark ++ escapeHtml (Str l))%string) ls)))).
Proof.
  intros Hmark. unfold or_dash.
  destruct (truthy _); cbn [cell_text]; constructor; [|constructor].
  apply clean_join; [now apply clean_closed|].
  apply Forall_forall. intros s Hs. apply in_map_iff in Hs as (l & <- & _).
  apply clean_app; [exact Hmark | apply escapeHtml_clean].
Qed.

Lemma render_items_In items : forall i c,
  In c (render_items items i) -> exists r j, c = renderChangeItem r j.
Proof.
  induction items as [|r items IH]; intros i c; cbn; [intros []|].
  intros [<-|H]; [now exists r, i | now apply IH in H].
Qed.

Lemma render_sections_In groups names : forall i rendered sec,
  In sec (fst (render_sections groups names i rendered)) ->
  (exists f, section_title sec = escapeHtml (Str f)) /\
  (forall c, In c (section_items sec) -> exists r j, c = renderChangeItem r j).
Proof.
  induction names as [|f names IH]; intros i rendered sec; cbn [render_sections].
  - intros [].
  - specialize (IH (i + length (group_items groups f))
                   (rendered ++ group_items groups f) sec).
    destruct (render_sections groups names _ _) as [sections rendered'].
    cbn [fst] in *. intros [<-|H]; [|now apply IH].
    cbn [section_title section_items]. split; [now exists f|].
    intros c. apply render_items_In.
Qed.

(** ** The copy buttons *)

Lemma nth_error_render_items items : forall k i,
  nth_error (render_items items k) i
  = option_map (fun r => renderChangeItem r (k + i)) (nth_error items i).
Proof.
  induction items as [|r items IH]; intros k [|i]; cbn; try reflexivity.
  - now rewrite Nat.add_0_r.
  - rewrite IH. now rewrite Nat.add_succ_r.
Qed.

Lemma card_copy_renderChangeItem r i : card_copy (renderChangeItem r i) = i.
Proof.
  unfold renderChangeItem.
  destruct ((context r =? "kv") || (context r =? "plist-kv")); [reflexivity|].
  now destruct (change_type r =? "file-deleted").
Qed.

(** Filtering by each name of a list without repeats, when every record
    has its file among the names, only reorders the records. *)
Lemma flat_map_filter_skip (c : ChangeRecord) l names :
  ~ In (file c) names ->
  flat_map (fun f => filter (fun x => file x =? f) (c :: l)) names
  = flat_map (fun f => filter (fun x => file x =? f) l) names.
Proof.
  induction names as [|f names IH]; intros Hnot; [reflexivity|].
  cbn [flat_map].
  assert (Hhead : filter (fun x => file x =? f) (c :: l)
                  = if file c =? f then c :: filter (fun x => file x =? f) l
                    else filter (fun x => file x =? f) l) by reflexivity.
  rewrite Hhead. destruct (String.eqb_spec (file c) f) as [E|E].
  - elim Hnot. now left.
  - rewrite IH; [reflexivity|]. intros H. apply Hnot. now right.
Qed.

Lemma flat_map_filter_insert (c : ChangeRecord) l names :
  NoDup names -> In (file c) names ->
  Permutation
    (flat_map (fun f => filter (fun x => file x =? f) (c :: l)) names)
    (c :: flat_map (fun f => filter (fun x => file x =? f) l) names).
Proof.
  induction 1 as [|f names Hnot Hnodup IH]; intros Hin; [elim Hin|].
  cbn [flat_map].
  assert (Hhead : filter (fun x => file x =? f) (c :: l)
                  = if file c =? f then c :: filter (fun x => file x =? f) l
                    else filter (fun x => file x =? f) l) by reflexivity.
  rewrite Hhead. destruct (String.eqb_spec (file c) f) as [E|E].
  - subst f. now rewrite flat_map_filter_skip.
  - destruct Hin as [Hin|Hin]; [congruence|].
    rewrite (IH Hin). symmetry. apply Permutation_middle.
Qed.

Lemma flat_map_filter_Permutation (l : list ChangeRecord) names :
  NoDup names -> (forall c, In c l -> In (file c) names) ->
  Permutation (flat_map (fun f => filter (fun x => file x =? f) l) names) l.
Proof.
  intros Hnodup. induction l as [|c l IH]; intros Hall.
  - rewrite flat_map_empty; [reflexivity | reflexivity].
  - rewrite flat_map_filter_insert; [|exact Hnodup | apply Hall; now left].
    constructor. apply IH. intros x Hx. apply Hall. now right.
Qed.

Lemma renderFiles_returned changes st :
  fst (renderFiles changes st) = Return tt ->
  forall c, In c changes -> Obj.inherited (file c) = false.
Proof.
  intros Hret c Hc. destruct (Obj.inherited (file c)) eqn:E; [|reflexivity].
  unfold renderFiles, bind, lift in Hret.
  rewrite (groupBy_throws changes file c Hc E) in Hret. discriminate.
Qed.

(** X3.  When [renderFiles] has rendered a page, every record of the page
    has been rendered once ([CURRENT_RENDERED] is the page, reordered by
    file), the copy indexes of the cards count from 0 in the order of the
    view, and the click listener of a copy button takes from
    [CURRENT_RENDERED] the very record its card was rendered from; an index
    past the last card selects nothing. *)
Theorem copy_button_selects_its_record (changes : list ChangeRecord) (st : state) :
  fst (renderFiles changes st) = Return tt ->
  let st' := snd (renderFiles changes st) in
  Permutation (CURRENT_RENDERED st') changes /\
  length (flat_map section_items (files st')) = length changes /\
  (forall i c,
     nth_error (flat_map section_items (files st')) i = Some c ->
     card_copy c = i /\
     exists r, copy_target (Some i) st' = Some r /\ In r changes /\
               c = renderChangeItem r i) /\
  (forall i, (length changes <= i)%nat -> copy_target (Some i) st' = None).
Proof.
  intros Hret st'. subst st'.
  pose proof (renderFiles_returned changes st Hret) as Hkeys.
  destruct (renderFiles_groups_sorted changes st Hkeys)
    as (groups & names & Hg & Hnames & Hsorted & Hnodup & Hin & Hitems & ->).
  destruct (render_sections_spec groups names 0 []) as (_ & _ & H3 & H4).
  assert (Hflat : flat_map (group_items groups) names
                  = flat_map (fun f => filter (fun c => file c =? f) changes) names).
  { clear - Hitems. induction names as [|f names IH]; [reflexivity|].
    cbn [flat_map]. rewrite (Hitems f) by now left.
    rewrite IH; [reflexivity|]. intros f' Hf'. apply Hitems. now right. }
  assert (Hperm : Permutation (flat_map (group_items groups) names) changes).
  { rewrite Hflat. apply flat_map_filter_Permutation; [exact Hnodup|].
    intros c Hc. apply Hin. now exists c. }
  assert (Hlen : forall l k, length (render_items l k) = length l).
  { induction l as [|x l IHl]; intros k; cbn; [reflexivity | now rewrite IHl]. }
  cbn [snd set_files files CURRENT_RENDERED copy_target].
  rewrite H3, H4. cbn [app].
  split; [exact Hperm|]. split; [|split].
  - rewrite Hlen. now apply Permutation_length.
  - intros i c Hc. rewrite nth_error_render_items in Hc. cbn [Nat.add] in Hc.
    destruct (nth_error (flat_map (group_items groups) names) i) as [r|] eqn:E;
      [|discriminate].
    injection Hc as <-. split; [apply card_copy_renderChangeItem|].
    exists r. split; [reflexivity|]. split; [|reflexivity].
    apply (Permutation_in _ Hperm). now apply nth_error_In in E.
  - intros i Hi. apply nth_error_None.
    now rewrite (Permutation_length Hperm).
Qed.

(** The sample as a page: the first card of the view is the removed file. *)
Lemma copy_button_selects_its_record_witness :
  fst (renderFiles sample initial) = Return tt /\
  (let st' := snd (renderFiles sample initial) in
   Permutation (CURRENT_RENDERED st') sample /\
   length (flat_map section_items (files st')) = length sample /\
   (forall i c,
      nth_error (flat_map section_items (files st')) i = Some c ->
      card_copy c = i /\
      exists r, copy_target (Some i) st' = Some r /\ In r sample /\
                c = renderChangeItem r i) /\
   (forall i, (length sample <= i)%nat -> copy_target (Some i) st' = None)).
Proof.
  assert (H : fst (renderFiles sample initial) = Return tt) by reflexivity.
  split; [exact H | exact (copy_button_selects_its_record sample initial H)].
Defined.

(** ** The summary *)

(** Three tags that differ split a list in four: one part a tag and the
    rest. *)
Lemma count_three_tags {A : Type} (tag : A -> string) (t1 t2 t3 : string) l :
  t1 <> t2 -> t1 <> t3 -> t2 <> t3 ->
  (length (filter (fun x => tag x =? t1) l)
   + length (filter (fun x => tag x =? t2) l)
   + length (filter (fun x => tag x =? t3) l)
   + length (filter (fun x => negb ((tag x =? t1) || (tag x =? t2) || (tag x =? t3))) l)
   = length l).
Proof.
  intros H12 H13 H23. induction l as [|x l IH]; [reflexivity|].
  cbn [filter].
  destruct (String.eqb_spec (tag x) t1) as [E1|E1];
    destruct (String.eqb_spec (tag x) t2) as [E2|E2];
    destruct (String.eqb_spec (tag x) t3) as [E3|E3];
    try congruence; cbn [orb negb length]; lia.
Qed.

Lemma applyFilters_summary st :
  summary (snd (applyFilters st))
  = summary_cards (LAST_FILTERED (snd (applyFilters st))).
Proof.
  cbv [applyFilters bind modify renderSummary].
  match goal with |- context [updatePage ?s] =>
    destruct (updatePage_run s) as (o & r & f & t & p & n & ->) end.
  reflexivity.
Qed.

(** X4.  The summary counts the whole filtered list, not the page shown,
    and paging leaves it alone.  Its first card is the number of filtered
    records; the cards of replacements, insertions and deletions add up to
    that number less the records of any other change type (a removed file
    is in the total and in none of the three); the cards of key-value pairs
    and of raw blocks add up to it less the records of any other context. *)
Theorem summary_counts_filtered_list (st : state) :
  summary (snd (applyFilters st))
  = summary_cards (LAST_FILTERED (snd (applyFilters st)))
  /\
  summary (snd (updatePage st)) = summary st
  /\
  (forall changes,
     exists T R I D K B : nat,
       summary_cards changes
       = [ ("Total changes", T); ("Replacements", R); ("Insertions", I);
           ("Deletions", D); ("KV / Plist pairs", K); ("Raw blocks", B) ] /\
       T = length changes /\
       (R + I + D
        + count_if (fun c => negb ((change_type c =? "replace")
                                   || (change_type c =? "insert")
                                   || (change_type c =? "delete"))) changes
        = T) /\
       (count_type "file-deleted" changes <= T - (R + I + D)) /\
       (K + B
        + count_if (fun c => negb ((context c =? "kv") || (context c =? "plist-kv")
                                   || (context c =? "block"))) changes
        = T)).
Proof.
  split; [apply applyFilters_summary|]. split.
  - destruct (updatePage_run st) as (o & r & f & t & p & n & ->). reflexivity.
  - intros changes. unfold summary_cards, count_if.
    do 6 eexists. split; [reflexivity|]. split; [reflexivity|].
    pose proof (count_three_tags change_type "replace" "insert" "delete" changes)
      as Htypes.
    pose proof (count_three_tags context "kv" "plist-kv" "block" changes) as Hctx.
    assert (Hdel : (count_type "file-deleted" changes
                    <= length (filter (fun c => negb ((change_type c =? "replace")
                                   || (change_type c =? "insert")
                                   || (change_type c =? "delete"))) changes))).
    { unfold count_type. clear. induction changes as [|c l IH]; [reflexivity|].
      cbn [filter].
      destruct (String.eqb_spec (change_type c) "file-deleted") as [E|E].
      - rewrite E. cbn. lia.
      - destruct (negb _); cbn [length]; lia. }
    assert (Hkv : length (filter (fun c => (context c =? "kv")
                                           || (context c =? "plist-kv")) changes)
                  = (length (filter (fun c => context c =? "kv") changes)
                     + length (filter (fun c => context c =? "plist-kv") changes))).
    { clear. induction changes as [|c l IH]; [reflexivity|].
      cbn [filter].
      destruct (String.eqb_spec (context c) "kv") as [E|E].
      - rewrite E. cbn. lia.
      - destruct (context c =? "plist-kv"); cbn [orb length]; lia. }
    rewrite Hkv.
    repeat split; try lia.
    + specialize (Htypes ltac:(discriminate) ltac:(discriminate) ltac:(discriminate)).
      lia.
    + specialize (Htypes ltac:(discriminate) ltac:(discriminate) ltac:(discriminate)).
      lia.
    + specialize (Hctx ltac:(discriminate) ltac:(discriminate) ltac:(discriminate)).
      lia.
Qed.

(** ** The pages *)

Lemma firstn_plus {A : Type} a b : forall l : list A,
  firstn (a + b) l = firstn a l ++ firstn b (skipn a l).
Proof.
  induction a as [|a IH]; intros l; [reflexivity|].
  destruct l as [|x l]; cbn.
  - now rewrite firstn_nil.
  - now rewrite IH.
Qed.

Lemma firstn_cap {A : Type} a b (l : list A) :
  b = Nat.min a (length l) -> firstn b l = firstn a l.
Proof.
  intros ->. destruct (Nat.le_ge_cases a (length l)) as [H|H].
  - now rewrite Nat.min_l.
  - rewrite Nat.min_r by exact H. now rewrite firstn_all, firstn_all2.
Qed.

(** Runs of [n] elements taken one after the other give back the front of
    the list. *)
Lemma concat_runs {A : Type} n (l : list A) m :
  concat (map (fun k => firstn n (skipn (k * n) l)) (seq 0 m)) = firstn (m * n) l.
Proof.
  induction m as [|m IH]; [reflexivity|].
  rewrite seq_S, map_app, concat_app, IH. cbn [map concat Nat.add].
  rewrite app_nil_r.
  replace (S m * n)%nat with (m * n + n)%nat by (cbn; lia).
  now rewrite firstn_plus.
Qed.

Open Scope Z_scope.

Lemma size_ok_positive st :
  size_ok (PAGE_SIZE st) ->
  PAGE_SIZE st = All \/ exists n, PAGE_SIZE st = Rows n /\ 0 < n.
Proof.
  unfold size_ok. destruct (PAGE_SIZE st) as [|n]; [now left|].
  intros H. right. exists n. split; [reflexivity | lia].
Qed.

(** [start] and [stop] when the size is not zero. *)
Lemma computePage_run st :
  size (computePage st) <> 0 ->
  start (computePage st) = (page (computePage st) - 1) * size (computePage st) /\
  stop (computePage st)
  = Z.min (start (computePage st) + size (computePage st))
          (Z.of_nat (length (LAST_FILTERED st))).
Proof.
  unfold computePage. cbn [size start stop page]. intros H.
  destruct (Z.eqb_spec
              (match PAGE_SIZE st with
               | All => Z.of_nat (length (LAST_FILTERED st))
               | Rows n => n
               end) 0); [contradiction|].
  split; reflexivity.
Qed.

(** The items of a page within the pages, when the size is not zero: the
    run of [size] records after the pages before it. *)
Lemma items_of_page_run st p :
  size_ok (PAGE_SIZE st) -> size (computePage st) <> 0 ->
  (1 <= p)%nat -> Z.of_nat p <= totalPages (computePage st) ->
  items_of_page st p
  = firstn (Z.to_nat (size (computePage st)))
           (skipn ((p - 1) * Z.to_nat (size (computePage st))) (LAST_FILTERED st)).
Proof.
  intros Hok Hsz Hp1 Hp2. unfold items_of_page.
  set (st1 := set_PAGE (Z.of_nat p) st).
  assert (Hok1 : PAGE_SIZE st1 = All \/ exists n, PAGE_SIZE st1 = Rows n /\ 0 < n)
    by (apply (size_ok_positive st Hok)).
  destruct (computePage_bounds st1 Hok1) as (Htp & Hpg & Hse & Hst & Ht).
  assert (Htp1 : totalPages (computePage st1) = totalPages (computePage st))
    by (now apply totalPages_frame).
  assert (Hsize1 : size (computePage st1) = size (computePage st)) by reflexivity.
  assert (Hpage : page (computePage st1) = Z.of_nat p).
  { assert (E : page (computePage st1)
                = Z.min (Z.max 1 (Z.of_nat p)) (totalPages (computePage st1)))
      by reflexivity.
    rewrite E, Htp1. lia. }
  destruct (computePage_run st1) as (Hstart & Hstop); [now rewrite Hsize1|].
  rewrite Hpage, Hsize1 in Hstart. rewrite Hsize1 in Hstop.
  change (LAST_FILTERED st1) with (LAST_FILTERED st) in Hstop, Ht.
  change (pageItems (computePage st1))
    with (slice (LAST_FILTERED st) (start (computePage st1)) (stop (computePage st1))).
  rewrite slice_in_range by lia.
  set (sz := size (computePage st)) in *.
  assert (Hsz1 : 0 < sz).
  { assert (E : sz = match PAGE_SIZE st with
                     | All => Z.of_nat (length (LAST_FILTERED st))
                     | Rows n => n
                     end) by reflexivity.
    destruct (size_ok_positive st Hok) as [E' | (n & E' & Hn)];
      rewrite E' in E; lia. }
  assert (Hskip : Z.to_nat (start (computePage st1)) = ((p - 1) * Z.to_nat sz)%nat).
  { rewrite Hstart, Z2Nat.inj_mul by lia. f_equal. lia. }
  rewrite Hskip. apply firstn_cap. rewrite length_skipn, <- Hskip. lia.
Qed.

(** X5.  With a page size the selector can leave, the pages tile the
    filtered list: their items, page 1 to the last, put end to end are the
    filtered list, so no record is left out of the pages or shown on two
    of them; on a list that is not empty no page is empty, and a page of a
    numeric size holds at most that many records. *)
Theorem pages_tile_filtered_list (st : state) :
  size_ok (PAGE_SIZE st) ->
  let pages := Z.to_nat (totalPages (computePage st)) in
  concat (map (items_of_page st) (seq 1 pages)) = LAST_FILTERED st /\
  (forall p, (1 <= p <= pages)%nat ->
             LAST_FILTERED st <> [] -> items_of_page st p <> []) /\
  (forall p n, (1 <= p <= pages)%nat -> PAGE_SIZE st = Rows n ->
               Z.of_nat (length (items_of_page st p)) <= n).
Proof.
  intros Hok pages.
  destruct (computePage_bounds st (size_ok_positive st Hok))
    as (Htp & _ & _ & _ & _).
  set (l := LAST_FILTERED st).
  set (sz := size (computePage st)).
  assert (Hsz : sz = match PAGE_SIZE st with
                     | All => Z.of_nat (length l)
                     | Rows n => n
                     end) by reflexivity.
  assert (Hpages : totalPages (computePage st)
                   = if sz =? 0 then 1 else Z.max 1 (ceil_div (Z.of_nat (length l)) sz)).
  { unfold computePage. cbn [totalPages]. fold l. rewrite <- Hsz.
    now destruct (sz =? 0). }
  destruct (Z.eq_dec sz 0) as [Hz|Hnz].
  - (* the whole list on one page, and the list is empty *)
    assert (Hl : l = []).
    { destruct (size_ok_positive st Hok) as [E | (n & E & Hn)];
        rewrite E in Hsz; cbv beta iota in Hsz; [|lia].
      apply length_zero_iff_nil. lia. }
    assert (Hone : pages = 1%nat).
    { subst pages. rewrite Hpages, Hz. reflexivity. }
    assert (Hitems : forall p, items_of_page st p = []).
    { intros p.
      assert (E : items_of_page st p
                  = slice l (start (computePage (set_PAGE (Z.of_nat p) st)))
                            (stop (computePage (set_PAGE (Z.of_nat p) st))))
        by reflexivity.
      rewrite E, Hl. unfold slice. now rewrite skipn_nil, firstn_nil. }
    rewrite Hone. cbn [seq map concat]. rewrite Hitems, Hl.
    split; [reflexivity|]. split; [now intros p _ H | ].
    intros p n _ Hrows. rewrite Hitems. cbn [length].
    rewrite Hrows in Hok. cbn in Hok. lia.
  - assert (Hpos : 0 < sz).
    { destruct (size_ok_positive st Hok) as [E | (n & E & Hn)];
        rewrite E in Hsz; cbv beta iota in Hsz; lia. }
    pose proof (ceil_div_spec (Z.of_nat (length l)) sz Hpos) as Hceil.
    destruct (Z.eqb_spec sz 0) as [|_]; [contradiction|].
    assert (Hrun : forall p, (1 <= p <= pages)%nat ->
              items_of_page st p
              = firstn (Z.to_nat sz) (skipn ((p - 1) * Z.to_nat sz) l)).
    { intros p Hp. apply items_of_page_run; trivial; subst pages; lia. }
    split; [|split].
    + rewrite <- seq_shift, map_map.
      rewrite (map_ext_in _ (fun k => firstn (Z.to_nat sz) (skipn (k * Z.to_nat sz) l))).
      * rewrite concat_runs. apply firstn_all2.
        subst pages. rewrite Hpages.
        assert (Z.of_nat (length l)
                <= Z.of_nat (Z.to_nat (Z.max 1 (ceil_div (Z.of_nat (length l)) sz))
                             * Z.to_nat sz)); [|lia].
        rewrite Nat2Z.inj_mul, !Z2Nat.id by lia. nia.
      * intros k Hk. apply in_seq in Hk. rewrite Hrun by lia.
        now rewrite Nat.sub_1_r, Nat.pred_succ.
    + intros p Hp Hne. rewrite (Hrun p Hp).
      assert (Hlen : (0 < length l)%nat) by (destruct l; [congruence | cbn; lia]).
      assert (Hbefore : ((p - 1) * Z.to_nat sz < length l)%nat).
      { subst pages. rewrite Hpages in Hp.
        assert (Z.of_nat ((p - 1) * Z.to_nat sz) < Z.of_nat (length l)); [|lia].
        rewrite Nat2Z.inj_mul, Z2Nat.id by lia. nia. }
      intros Hnil. apply (f_equal (@length _)) in Hnil.
      rewrite length_firstn, length_skipn in Hnil. cbn [length] in Hnil. lia.
    + intros p n Hp Hrows. rewrite (Hrun p Hp), length_firstn.
      rewrite Hrows in Hsz. lia.
Qed.

(** The sample, two rows a page: two pages. *)
Lemma pages_tile_filtered_list_witness :
  let st := mkState sample sample 1 (Rows 2) [] "" "" "" "" [] [] NoResults
                    true true false false [] in
  size_ok (PAGE_SIZE st) /\
  (let pages := Z.to_nat (totalPages (computePage st)) in
   concat (map (items_of_page st) (seq 1 pages)) = LAST_FILTERED st /\
   (forall p, (1 <= p <= pages)%nat ->
              LAST_FILTERED st <> [] -> items_of_page st p <> []) /\
   (forall p n, (1 <= p <= pages)%nat -> PAGE_SIZE st = Rows n ->
                Z.of_nat (length (items_of_page st p)) <= n)).
Proof.
  intros st.
  assert (H : size_ok (PAGE_SIZE st)) by (cbn; lia).
  split; [exact H | exact (pages_tile_filtered_list st H)].
Defined.

Close Scope Z_scope.

(** ** The pager *)

Open Scope Z_scope.

Lemma page_clamp st :
  page (computePage st) = Z.min (Z.max 1 (PAGE st)) (totalPages (computePage st)).
Proof. reflexivity. Qed.

Lemma totalPages_positive st : 1 <= totalPages (computePage st).
Proof.
  unfold computePage. cbn [totalPages].
  destruct (_ =? 0); lia.
Qed.

(** What [updatePage] leaves of the three inputs of [computePage]. *)
Lemma updatePage_inputs st :
  PAGE (snd (updatePage st)) = page (computePage st) /\
  LAST_FILTERED (snd (updatePage st)) = LAST_FILTERED st /\
  PAGE_SIZE (snd (updatePage st)) = PAGE_SIZE st /\
  totalPages (computePage (snd (updatePage st))) = totalPages (computePage st).
Proof.
  destruct (updatePage_run st) as (o & r & f & t & p & n & E).
  rewrite E. cbn [snd PAGE LAST_FILTERED PAGE_SIZE].
  split; [reflexivity|]. split; [reflexivity|]. split; [reflexivity|].
  now apply totalPages_frame.
Qed.

(** A move to a page within the pages lands on that page. *)
Lemma move_to_page st p :
  1 <= p <= totalPages (computePage st) ->
  PAGE (snd (updatePage (set_PAGE p st))) = p /\
  totalPages (computePage (snd (updatePage (set_PAGE p st))))
  = totalPages (computePage st).
Proof.
  intros Hp.
  destruct (updatePage_inputs (set_PAGE p st)) as (HP & _ & _ & Htp).
  assert (E : totalPages (computePage (set_PAGE p st)) = totalPages (computePage st))
    by (now apply totalPages_frame).
  rewrite HP, Htp, page_clamp, E. cbn [set_PAGE PAGE]. split; [lia | reflexivity].
Qed.

Lemma pagePrev_click_run st :
  pagePrev_click st
  = if 1 <? PAGE st then updatePage (set_PAGE (PAGE st - 1) st) else (Return tt, st).
Proof. unfold pagePrev_click. now destruct (1 <? PAGE st). Qed.

Lemma pageNext_click_run st :
  pageNext_click st
  = if PAGE st <? totalPages (computePage st)
    then updatePage (set_PAGE (PAGE st + 1) st) else (Return tt, st).
Proof.
  unfold pageNext_click. cbv zeta.
  now destruct (PAGE st <? totalPages (computePage st)).
Qed.

(** X6.  The pager moves by one page and stops at the ends: on the first
    page the listener of Previous changes nothing, on the last page the
    listener of Next changes nothing, and from a page before the last, Next
    goes to the following page and Previous then comes back to the page it
    started from. *)
Theorem pager_moves_one_page (st : state) :
  (PAGE st <= 1 -> pagePrev_click st = (Return tt, st)) /\
  (totalPages (computePage st) <= PAGE st -> pageNext_click st = (Return tt, st)) /\
  (1 <= PAGE st < totalPages (computePage st) ->
   PAGE (snd (pageNext_click st)) = PAGE st + 1 /\
   PAGE (snd (pagePrev_click (snd (pageNext_click st)))) = PAGE st) /\
  (1 < PAGE st <= totalPages (computePage st) ->
   PAGE (snd (pagePrev_click st)) = PAGE st - 1 /\
   PAGE (snd (pageNext_click (snd (pagePrev_click st)))) = PAGE st).
Proof.
  split; [|split; [|split]].
  - intros H. rewrite pagePrev_click_run. destruct (Z.ltb_spec 1 (PAGE st)); [lia | reflexivity].
  - intros H. rewrite pageNext_click_run.
    destruct (Z.ltb_spec (PAGE st) (totalPages (computePage st))); [lia | reflexivity].
  - intros H. rewrite pageNext_click_run.
    destruct (Z.ltb_spec (PAGE st) (totalPages (computePage st))) as [_|]; [|lia].
    destruct (move_to_page st (PAGE st + 1)) as (HP & Htp); [lia|].
    split; [exact HP|].
    set (st2 := snd (updatePage (set_PAGE (PAGE st + 1) st))) in *.
    rewrite pagePrev_click_run, HP.
    destruct (Z.ltb_spec 1 (PAGE st + 1)) as [_|]; [|lia].
    destruct (move_to_page st2 (PAGE st + 1 - 1)) as (HP2 & _); [lia|].
    rewrite HP2. lia.
  - intros H. rewrite pagePrev_click_run.
    destruct (Z.ltb_spec 1 (PAGE st)) as [_|]; [|lia].
    destruct (move_to_page st (PAGE st - 1)) as (HP & Htp); [lia|].
    split; [exact HP|].
    set (st2 := snd (updatePage (set_PAGE (PAGE st - 1) st))) in *.
    rewrite pageNext_click_run, HP, Htp.
    destruct (Z.ltb_spec (PAGE st - 1) (totalPages (computePage st))) as [_|]; [|lia].
    destruct (move_to_page st2 (PAGE st - 1 + 1)) as (HP2 & _); [lia|].
    rewrite HP2. lia.
Qed.

(** The sample, one row a page, from page 2 of 3. *)
Lemma pager_moves_one_page_witness :
  let st := mkState sample sample 2 (Rows 1) [] "" "" "" "" [] [] NoResults
                    true true false false [] in
  1 <= PAGE st < totalPages (computePage st) /\
  PAGE (snd (pageNext_click st)) = PAGE st + 1 /\
  PAGE (snd (pagePrev_click (snd (pageNext_click st)))) = PAGE st.
Proof.
  intros st.
  assert (H : 1 <= PAGE st < totalPages (computePage st)) by (cbn; lia).
  split; [exact H | exact (proj1 (proj2 (proj2 (pager_moves_one_page st))) H)].
Defined.

(** What a completed [updatePage] writes in the pager. *)
Lemma updatePage_returned st :
  fst (updatePage st) = Return tt ->
  pagePrev_disabled (snd (updatePage st)) = (page (computePage st) <=? 1) /\
  pageNext_disabled (snd (updatePage st))
  = (totalPages (computePage st) <=? page (computePage st)) /\
  pageInfo (snd (updatePage st))
  = if total (computePage st) =? 0 then NoResults
    else Range (start (computePage st) + 1) (stop (computePage st))
               (total (computePage st)) (page (computePage st))
               (totalPages (computePage st)).
Proof.
  cbv [updatePage bind modify].
  set (st1 := set_PAGE (page (computePage st)) st).
  destruct (renderFiles_run (pageItems (computePage st)) st1)
    as [(e & _ & ->) | (groups & _ & ->)]; [discriminate|].
  intros _. unfold renderPager, modify. cbn [snd set_pager set_files
    pagePrev_disabled pageNext_disabled pageInfo]. now repeat split.
Qed.

(** X7.  Once [updatePage] has completed, the pager tells the truth: the
    Previous button is disabled exactly on page 1 and the Next button
    exactly on the last page, a disabled button has a listener that would
    change nothing, an enabled one moves [PAGE] by one, and the label reads
    "No results" exactly when the filtered list is empty. *)
Theorem pager_buttons_match_listeners (st : state) :
  fst (updatePage st) = Return tt ->
  let st' := snd (updatePage st) in
  (pagePrev_disabled st' = true <-> PAGE st' = 1) /\
  (pageNext_disabled st' = true <-> PAGE st' = totalPages (computePage st')) /\
  (pagePrev_disabled st' = true -> pagePrev_click st' = (Return tt, st')) /\
  (pageNext_disabled st' = true -> pageNext_click st' = (Return tt, st')) /\
  (pagePrev_disabled st' = false -> PAGE (snd (pagePrev_click st')) = PAGE st' - 1) /\
  (pageNext_disabled st' = false -> PAGE (snd (pageNext_click st')) = PAGE st' + 1) /\
  (pageInfo st' = NoResults <-> LAST_FILTERED st' = []).
Proof.
  intros Hret st'.
  destruct (updatePage_returned st Hret) as (Hprev & Hnext & Hinfo).
  destruct (updatePage_inputs st) as (HP & HL & _ & Htp).
  fold st' in Hprev, Hnext, Hinfo, HP, HL, Htp.
  pose proof (totalPages_positive st) as Hpos.
  assert (Hrange : 1 <= PAGE st' <= totalPages (computePage st'))
    by (rewrite HP, Htp, page_clamp; lia).
  rewrite <- HP in Hprev. rewrite <- HP, <- Htp in Hnext.
  assert (Hfirst : PAGE st' <= 1 -> pagePrev_click st' = (Return tt, st')).
  { intros H. rewrite pagePrev_click_run.
    destruct (Z.ltb_spec 1 (PAGE st')); [lia | reflexivity]. }
  assert (Hlast : totalPages (computePage st') <= PAGE st' ->
                  pageNext_click st' = (Return tt, st')).
  { intros H. rewrite pageNext_click_run.
    destruct (Z.ltb_spec (PAGE st') (totalPages (computePage st')));
      [lia | reflexivity]. }
  split; [|split; [|split; [|split; [|split; [|split]]]]].
  - rewrite Hprev, Z.leb_le. lia.
  - rewrite Hnext, Z.leb_le. lia.
  - intros H. apply Hfirst. rewrite Hprev, Z.leb_le in H. exact H.
  - intros H. apply Hlast. rewrite Hnext, Z.leb_le in H. exact H.
  - intros H. rewrite Hprev, Z.leb_gt in H.
    rewrite pagePrev_click_run. destruct (Z.ltb_spec 1 (PAGE st')) as [_|]; [|lia].
    apply (move_to_page st' (PAGE st' - 1)). lia.
  - intros H. rewrite Hnext, Z.leb_gt in H.
    rewrite pageNext_click_run.
    destruct (Z.ltb_spec (PAGE st') (totalPages (computePage st'))) as [_|]; [|lia].
    apply (move_to_page st' (PAGE st' + 1)). lia.
  - rewrite Hinfo, HL.
    assert (Ht : total (computePage st) = Z.of_nat (length (LAST_FILTERED st)))
      by reflexivity.
    rewrite Ht. destruct (Z.eqb_spec (Z.of_nat (length (LAST_FILTERED st))) 0) as [E|E].
    + split; [intros _ | reflexivity]. apply length_zero_iff_nil. lia.
    + split; [discriminate|]. intros Hnil. rewrite Hnil in E. now elim E.
Qed.

(** The sample, two rows a page, page 1. *)
Lemma pager_buttons_match_listeners_witness :
  let st := mkState sample sample 1 (Rows 2) [] "" "" "" "" [] [] NoResults
                    true true false false [] in
  fst (updatePage st) = Return tt /\
  (let st' := snd (updatePage st) in
   (pagePrev_disabled st' = true <-> PAGE st' = 1) /\
   (pageNext_disabled st' = true <-> PAGE st' = totalPages (computePage st')) /\
   (pagePrev_disabled st' = true -> pagePrev_click st' = (Return tt, st')) /\
   (pageNext_disabled st' = true -> pageNext_click st' = (Return tt, st')) /\
   (pagePrev_disabled st' = false -> PAGE (snd (pagePrev_click st')) = PAGE st' - 1) /\
   (pageNext_disabled st' = false -> PAGE (snd (pageNext_click st')) = PAGE st' + 1) /\
   (pageInfo st' = NoResults <-> LAST_FILTERED st' = [])).
Proof.
  intros st.
  assert (H : fst (updatePage st) = Return tt) by reflexivity.
  split; [exact H | exact (pager_buttons_match_listeners st H)].
Defined.

Close Scope Z_scope.

(** ** The page stays within the pages *)

Lemma page_ok_frame st st' :
  PAGE st' = PAGE st -> PAGE_SIZE st' = PAGE_SIZE st ->
  LAST_FILTERED st' = LAST_FILTERED st ->
  page_ok st -> page_ok st'.
Proof.
  intros HP HS HL [Hsize Hpage]. unfold page_ok.
  rewrite (totalPages_frame st st' HL HS), HP, HS. now split.
Qed.

Lemma updatePage_page_ok st :
  size_ok (PAGE_SIZE st) -> page_ok (snd (updatePage st)).
Proof.
  intros Hsize. destruct (updatePage_inputs st) as (HP & _ & HS & Htp).
  unfold page_ok. rewrite HP, HS, Htp, page_clamp.
  pose proof (totalPages_positive st). split; [exact Hsize | lia].
Qed.

Lemma applyFilters_as_updatePage st :
  applyFilters st
  = updatePage
      (set_summary
         (summary_cards
            (filter (keep (trim (toLowerCase (q st))) (typeFilter st) (ctxFilter st))
                    (DATA st)))
         (set_PAGE 1
            (set_LAST_FILTERED
               (filter (keep (trim (toLowerCase (q st))) (typeFilter st) (ctxFilter st))
                       (DATA st))
               st))).
Proof. reflexivity. Qed.

Lemma applyFilters_page_ok st :
  size_ok (PAGE_SIZE st) -> page_ok (snd (applyFilters st)).
Proof.
  intros Hsize. rewrite applyFilters_as_updatePage.
  now apply updatePage_page_ok.
Qed.

(** After [applyFilters] the page is the first one. *)
Lemma applyFilters_first_page st : PAGE (snd (applyFilters st)) = 1%Z.
Proof.
  rewrite applyFilters_as_updatePage.
  match goal with |- PAGE (snd (updatePage ?s)) = _ =>
    destruct (updatePage_inputs s) as (HP & _); rewrite HP, page_clamp;
    pose proof (totalPages_positive s) end.
  cbn [PAGE set_summary set_PAGE]. lia.
Qed.

Section SessionFacts.

Variable JSON_parse : string -> outcome json.
Variable Number : string -> option Z.

(** A load keeps the page within the pages, whatever the text. *)
Lemma load_page_ok text st (between : M unit) :
  (forall s, exists s', between s = (Return tt, s') /\
                        PAGE_SIZE s' = PAGE_SIZE s) ->
  page_ok st ->
  page_ok (snd (try_catch
                  (parsed <- parse_array JSON_parse text ;;
                   modify (set_DATA parsed) ;; between ;; applyFilters)
                  invalid_json st)).
Proof.
  intros Hbetween Hok.
  destruct (rejection (JSON_parse text)) as [msg|] eqn:Erej.
  - rewrite (load_rejects JSON_parse text msg st (between ;; applyFilters) Erej).
    cbn [snd]. now apply (page_ok_frame st).
  - assert (Harr : exists records, JSON_parse text = Return (ArrayRoot records)).
    { unfold rejection in Erej.
      destruct (JSON_parse text) as [[records|]|e]; try discriminate. now exists records. }
    destruct Harr as (records & Harr).
    cbv [try_catch bind modify].
    rewrite (parse_array_accepts JSON_parse text records st Harr).
    destruct (Hbetween (set_DATA records st)) as (s' & -> & HS).
    assert (Hsize : size_ok (PAGE_SIZE s')) by (rewrite HS; apply Hok).
    pose proof (applyFilters_page_ok s' Hsize) as Hs'.
    destruct (applyFilters s') as [[[]|e] s'']; cbn [snd] in *; [exact Hs'|].
    now apply (page_ok_frame s'').
Qed.

Lemma ret_keeps_size (s : state) :
  exists s', ret tt s = (Return tt, s') /\ PAGE_SIZE s' = PAGE_SIZE s.
Proof. now exists s. Qed.

Lemma close_keeps_size (s : state) :
  exists s', modify (set_pasteDialog_open false) s = (Return tt, s') /\
             PAGE_SIZE s' = PAGE_SIZE s.
Proof. now eexists. Qed.

Lemma handle_page_ok ev st :
  page_ok st -> page_ok (snd (handle JSON_parse Number ev st)).
Proof.
  intros Hok. pose proof (proj1 Hok) as Hsize.
  destruct ev as [v|v|v| |v| | |file|v| |dropped| ]; cbn [handle].
  - exact (applyFilters_page_ok (set_q v st) Hsize).
  - exact (applyFilters_page_ok (set_typeFilter v st) Hsize).
  - exact (applyFilters_page_ok (set_ctxFilter v st) Hsize).
  - exact (applyFilters_page_ok
             (set_ctxFilter "" (set_typeFilter "" (set_q "" st))) Hsize).
  - apply (updatePage_page_ok
             (set_PAGE 1 (set_PAGE_SIZE
                            (if v =? "all" then All
                             else Rows (Z.max 1 (Number_or_50 Number v))) st))).
    cbn [PAGE_SIZE set_PAGE set_PAGE_SIZE].
    destruct (v =? "all"); cbn; [exact I | lia].
  - rewrite pagePrev_click_run. destruct (1 <? PAGE st)%Z; [|exact Hok].
    now apply updatePage_page_ok.
  - rewrite pageNext_click_run.
    destruct (PAGE st <? totalPages (computePage st))%Z; [|exact Hok].
    now apply updatePage_page_ok.
  - destruct file as [text|]; [|exact Hok].
    exact (load_page_ok text st (ret tt) ret_keeps_size Hok).
  - now apply (page_ok_frame st).
  - exact (load_page_ok (pasteArea st) st (modify (set_pasteDialog_open false))
                        close_keeps_size Hok).
  - destruct dropped as [[type text]|]; [|exact Hok]. cbn [window_drop].
    destruct (negb _); [now apply (page_ok_frame st)|].
    rewrite bind_modify.
    assert (Hok1 : page_ok (set_loadingEl true st)) by (now apply (page_ok_frame st)).
    pose proof (load_page_ok text (set_loadingEl true st) (ret tt) ret_keeps_size Hok1)
      as H.
    change (page_ok (snd (fileInput_onload JSON_parse text (set_loadingEl true st))))
      in H.
    fold (fileInput_onload JSON_parse text).
    destruct (try_invalid_json_returns
                (parsed <- parse_array JSON_parse text ;;
                 modify (set_DATA parsed) ;; applyFilters)
                (set_loadingEl true st)) as (s' & E).
    fold (fileInput_onload JSON_parse text) in E.
    rewrite E in H. rewrite (bind_returns _ _ tt _ _ E).
    now apply (page_ok_frame s').
  - exact (applyFilters_page_ok (set_DATA sample st) Hsize).
Qed.

(** X8.  From start-up on, whatever the user does and whether or not a
    listener throws, the page size is [All] or a number not below 1 and
    [PAGE] is one of the pages of the filtered list: every listener keeps
    it so, the rows selector leaves such a size for any value and goes to
    page 1, and the state the script starts in has it. *)
Theorem page_stays_within_pages :
  page_ok boot /\
  (forall ev st, page_ok st -> page_ok (snd (handle JSON_parse Number ev st))) /\
  (forall evs, page_ok (session JSON_parse Number evs boot)) /\
  (forall v st,
     size_ok (PAGE_SIZE (snd (rowsPerPage_change Number v st))) /\
     PAGE (snd (rowsPerPage_change Number v st)) = 1%Z).
Proof.
  assert (Hboot : page_ok boot) by (apply applyFilters_page_ok; cbn; lia).
  split; [exact Hboot|]. split; [exact handle_page_ok|]. split.
  - intros evs. generalize boot Hboot. induction evs as [|ev evs IH]; intros st Hst.
    + exact Hst.
    + cbn [session]. apply IH. now apply handle_page_ok.
  - intros v st.
    set (st1 := set_PAGE 1 (set_PAGE_SIZE
                   (if v =? "all" then All
                    else Rows (Z.max 1 (Number_or_50 Number v))) st)).
    change (rowsPerPage_change Number v st) with (updatePage st1).
    destruct (updatePage_inputs st1) as (HP & _ & HS & _).
    rewrite HP, HS, page_clamp. pose proof (totalPages_positive st1).
    split; [|cbn [PAGE st1 set_PAGE]; lia].
    cbn [PAGE_SIZE st1 set_PAGE set_PAGE_SIZE].
    destruct (v =? "all"); cbn; [exact I | lia].
Qed.

End SessionFacts.

(** ** The filter controls *)

Lemma filter_all {A : Type} (p : A -> bool) l :
  (forall x, p x = true) -> filter p l = l.
Proof.
  intros H. induction l as [|x l IH]; cbn; [reflexivity|]. now rewrite H, IH.
Qed.

Lemma lower_unit_space c : is_space c = true -> lower_unit c = c.
Proof.
  destruct c as [[|] [|] [|] [|] [|] [|] [|] [|]]; cbv; congruence.
Qed.

(** A search of white space only is the empty search. *)
Lemma blank_search v :
  forallb is_space (list_ascii_of_string v) = true -> trim (toLowerCase v) = "".
Proof.
  unfold trim. induction v as [|c v IH]; [reflexivity|].
  cbn [list_ascii_of_string forallb toLowerCase]. rewrite andb_true_iff.
  intros [Hc Hv]. rewrite (lower_unit_space c Hc). cbn [trimStart].
  rewrite Hc. now apply IH.
Qed.

Lemma applyFilters_controls st :
  let st' := snd (applyFilters st) in
  q st' = q st /\ typeFilter st' = typeFilter st /\ ctxFilter st' = ctxFilter st /\
  DATA st' = DATA st /\
  LAST_FILTERED st'
  = filter (keep (trim (toLowerCase (q st))) (typeFilter st) (ctxFilter st)) (DATA st).
Proof.
  cbv zeta. destruct (applyFilters_run st) as (o & p & r & s & f & t & pp & pn & ->).
  now repeat split.
Qed.

(** X9.  Every edit of a filter control goes back to page 1.  The Clear
    button empties the three controls and shows the whole dataset again:
    [LAST_FILTERED] is [DATA].  A search made of white space only narrows
    nothing: it leaves the list the empty search leaves. *)
Theorem filter_controls_reset_page (st : state) :
  (forall v, PAGE (snd (q_input v st)) = 1%Z /\
             PAGE (snd (typeFilter_change v st)) = 1%Z /\
             PAGE (snd (ctxFilter_change v st)) = 1%Z) /\
  (let st' := snd (clearFilters_click st) in
   q st' = "" /\ typeFilter st' = "" /\ ctxFilter st' = "" /\
   PAGE st' = 1%Z /\ DATA st' = DATA st /\ LAST_FILTERED st' = DATA st) /\
  (forall v, forallb is_space (list_ascii_of_string v) = true ->
             LAST_FILTERED (snd (q_input v st))
             = LAST_FILTERED (snd (q_input "" st))).
Proof.
  split; [|split].
  - intros v. repeat split.
    + exact (applyFilters_first_page (set_q v st)).
    + exact (applyFilters_first_page (set_typeFilter v st)).
    + exact (applyFilters_first_page (set_ctxFilter v st)).
  - set (st1 := set_ctxFilter "" (set_typeFilter "" (set_q "" st))).
    change (clearFilters_click st) with (applyFilters st1). cbv zeta.
    destruct (applyFilters_controls st1) as (Hq & Ht & Hc & HD & HL).
    rewrite Hq, Ht, Hc, HD, HL, (applyFilters_first_page st1).
    repeat split. apply filter_all. reflexivity.
  - intros v Hblank.
    change (q_input v st) with (applyFilters (set_q v st)).
    change (q_input "" st) with (applyFilters (set_q "" st)).
    destruct (applyFilters_controls (set_q v st)) as (_ & _ & _ & _ & ->).
    destruct (applyFilters_controls (set_q "" st)) as (_ & _ & _ & _ & ->).
    cbn [q typeFilter ctxFilter DATA set_q]. now rewrite (blank_search v Hblank).
Qed.

(** Three spaces in the search box. *)
Lemma filter_controls_reset_page_witness :
  forallb is_space (list_ascii_of_string "   ") = true /\
  LAST_FILTERED (snd (q_input "   " boot)) = LAST_FILTERED (snd (q_input "" boot)).
Proof.
  assert (H : forallb is_space (list_ascii_of_string "   ") = true) by reflexivity.
  split; [exact H | exact (proj2 (proj2 (filter_controls_reset_page boot)) "   " H)].
Defined.

(** ** Letter case in the search *)

Lemma toLowerCase_app a b :
  toLowerCase (a ++ b) = (toLowerCase a ++ toLowerCase b)%string.
Proof. induction a as [|c a IH]; cbn; [reflexivity | now rewrite IH]. Qed.

Lemma lower_unit_idempotent c : lower_unit (lower_unit c) = lower_unit c.
Proof. destruct c as [[|] [|] [|] [|] [|] [|] [|] [|]]; reflexivity. Qed.

Lemma toLowerCase_idempotent s : toLowerCase (toLowerCase s) = toLowerCase s.
Proof.
  induction s as [|c s IH]; cbn; [reflexivity|].
  now rewrite lower_unit_idempotent, IH.
Qed.

Lemma truthy_toLowerCase s : truthy (toLowerCase s) = truthy s.
Proof. now destruct s. Qed.

Lemma toLowerCase_join sep xs :
  toLowerCase (join sep xs) = join (toLowerCase sep) (map toLowerCase xs).
Proof.
  unfold join. induction xs as [|x xs IH]; [reflexivity|].
  destruct xs as [|y ys]; [reflexivity|].
  cbn [String.concat map] in *. now rewrite !toLowerCase_app, IH.
Qed.

Lemma filter_truthy_toLowerCase xs :
  map toLowerCase (filter truthy xs) = filter truthy (map toLowerCase xs).
Proof.
  induction xs as [|x xs IH]; [reflexivity|].
  cbn [filter map]. rewrite truthy_toLowerCase.
  destruct (truthy x); cbn [map]; now rewrite IH.
Qed.

(** The searched text, from the lower-cased fields. *)
Lemma hay_lower_fields c :
  hay c
  = join " "
      (filter truthy
         [ toLowerCase (file c);
           match option_map toLowerCase (property c) with Some s => s | None => "" end;
           match option_map toLowerCase (old c) with Some s => s | None => "" end;
           match option_map toLowerCase (new c) with Some s => s | None => "" end;
           join LF (match option_map (map toLowerCase) (old_lines c) with
                    | Some l => l | None => [] end);
           join LF (match option_map (map toLowerCase) (new_lines c) with
                    | Some l => l | None => [] end) ]).
Proof.
  unfold hay. cbv zeta. rewrite toLowerCase_join, filter_truthy_toLowerCase.
  cbn [map]. rewrite !toLowerCase_join.
  change (toLowerCase " ") with " ". change (toLowerCase LF) with LF.
  destruct (property c), (old c), (new c), (old_lines c), (new_lines c);
    reflexivity.
Qed.

(** X10.  The search does not see the case of letters: two records whose
    searched fields differ only by case are kept or dropped together by
    every filter, and a search gives the list its lower-cased form gives. *)
Theorem search_ignores_letter_case (r r' : ChangeRecord) :
  same_letters r r' ->
  hay r = hay r' /\
  (forall q tf cf, keep q tf cf r = keep q tf cf r') /\
  (forall v st, LAST_FILTERED (snd (q_input (toLowerCase v) st))
                = LAST_FILTERED (snd (q_input v st))).
Proof.
  intros (Hct & Hcx & Hf & Hp & Ho & Hn & Hol & Hnl).
  assert (Hhay : hay r = hay r').
  { rewrite !hay_lower_fields. now rewrite Hf, Hp, Ho, Hn, Hol, Hnl. }
  split; [exact Hhay|]. split.
  - intros q tf cf. unfold keep. now rewrite Hct, Hcx, Hhay.
  - intros v st.
    change (q_input (toLowerCase v) st) with (applyFilters (set_q (toLowerCase v) st)).
    change (q_input v st) with (applyFilters (set_q v st)).
    destruct (applyFilters_controls (set_q (toLowerCase v) st)) as (_ & _ & _ & _ & ->).
    destruct (applyFilters_controls (set_q v st)) as (_ & _ & _ & _ & ->).
    cbn [q typeFilter ctxFilter DATA set_q]. now rewrite toLowerCase_idempotent.
Qed.

(** The same record with its file name in capitals. *)
Lemma search_ignores_letter_case_witness :
  let r := mkChange "readme.md" None None None None (Some 1%Z) "block"
                    (Some []) (Some ["Title"]) "insert" in
  let r' := mkChange "README.MD" None None None None (Some 1%Z) "block"
                     (Some []) (Some ["TITLE"]) "insert" in
  same_letters r r' /\ hay r = hay r'.
Proof.
  intros r r'.
  assert (H : same_letters r r') by (repeat split).
  split; [exact H | exact (proj1 (search_ignores_letter_case r r' H))].
Defined.

(** ** The theme *)

Section ThemeFacts.

Import Theme.

(** X11.  The theme button flips the [dark] class and shows the glyph of
    the new theme; two clicks restore the class.  When the storage can be
    used, the theme left by a click is the one [theme-init.js] sets at the
    next load, whatever the system preference and the classes of the
    document.  Without a stored theme, or with the empty string stored, the
    system preference decides; a stored value other than [dark] gives the
    light theme; when the storage cannot be used [theme-init.js] leaves the
    class as it is and the button still flips it. *)
Theorem theme_choice_survives_reload (p : page) :
  dark (themeToggle_click p) = negb (dark p) /\
  button (themeToggle_click p) = (if dark (themeToggle_click p) then Sun else Moon) /\
  dark (themeToggle_click (themeToggle_click p)) = dark p /\
  (localStorage p <> Blocked ->
   forall prefersDark dark0 glyph0,
     dark (theme_init prefersDark
             (mkPage dark0 (localStorage (themeToggle_click p)) glyph0))
     = dark (themeToggle_click p)) /\
  (forall prefersDark dark0 glyph0,
     dark (theme_init prefersDark (mkPage dark0 Blocked glyph0)) = dark0 /\
     dark (theme_init prefersDark (mkPage dark0 (Item None) glyph0)) = prefersDark /\
     dark (theme_init prefersDark (mkPage dark0 (Item (Some "")) glyph0))
     = prefersDark) /\
  (forall prefersDark dark0 glyph0 t,
     t <> "" -> t <> "dark" ->
     dark (theme_init prefersDark (mkPage dark0 (Item (Some t)) glyph0)) = false).
Proof.
  split; [reflexivity|]. split; [reflexivity|]. split.
  { cbn. apply negb_involutive. }
  split; [|split].
  - intros Hstore prefersDark dark0 glyph0.
    destruct p as [d [|stored] b]; [now elim Hstore|].
    now destruct d.
  - intros prefersDark dark0 glyph0. now repeat split.
  - intros prefersDark dark0 glyph0 t Ht Hdark.
    unfold theme_init. cbn [localStorage dark].
    apply truthy_true in Ht. rewrite Ht. now apply String.eqb_neq.
Qed.

(** A first visit in the light theme, one click, and a reload on a system
    that prefers light. *)
Lemma theme_choice_survives_reload_witness :
  let p := mkPage false (Item None) Moon in
  localStorage p <> Blocked /\
  dark (theme_init false (mkPage false (localStorage (themeToggle_click p)) Moon))
  = dark (themeToggle_click p).
Proof.
  intros p.
  assert (H : localStorage p <> Blocked) by discriminate.
  split; [exact H|].
  exact (proj1 (proj2 (proj2 (proj2 (theme_choice_survives_reload p))))
               H false false Moon).
Defined.

End ThemeFacts.

(** ** Errors of a load *)






Section LoadErrors.

Variable JSON_parse : string -> outcome json.


End LoadErrors.


(** ** The badges of a file section *)

Lemma entries_In {V : Type} (m : Obj.t V) k v :
  In (k, v) (Obj.entries m) <-> Obj.own m k = Some v.
Proof.
  unfold Obj.entries. rewrite in_flat_map. split.
  - intros (k' & _ & Hin). destruct (Obj.own m k') as [v'|] eqn:E; [|destruct Hin].
    destruct Hin as [Heq|[]]. inversion Heq. subst. exact E.
  - intros H. exists k. split.
    + apply (Permutation_in _ (Permutation_sym (keys_Permutation m))).
      destruct (in_dec string_dec k (map fst m)) as [Hin|Hout]; [exact Hin|].
      apply own_None in Hout. congruence.
    + rewrite H. now left.
Qed.

Lemma entries_names {V : Type} (m : Obj.t V) :
  map fst (Obj.entries m) = Obj.keys m.
Proof.
  unfold Obj.entries.
  assert (Hown : forall k, In k (Obj.keys m) -> Obj.own m k <> None).
  { intros k Hk E. apply own_None in E. apply E.
    now apply (Permutation_in _ (keys_Permutation m)). }
  induction (Obj.keys m) as [|k l IH]; cbn [flat_map map]; [reflexivity|].
  rewrite map_app, IH by (intros k' Hk'; apply Hown; now right).
  destruct (Obj.own m k) eqn:E; [reflexivity|].
  elim (Hown k); [now left | exact E].
Qed.

Lemma tally_step_NoDup m c :
  NoDup (map fst m) -> NoDup (map fst (tally_step m c)).
Proof.
  intros H. unfold tally_step.
  destruct (Obj.own m (change_type c)) as [[n|f n]|]; try now apply set_NoDup.
  destruct (change_type c =? "__proto__"); [exact H|].
  destruct (Obj.inherited (change_type c)); now apply set_NoDup.
Qed.

Lemma tally_NoDup items : forall m,
  NoDup (map fst m) -> NoDup (map fst (fold_left tally_step items m)).
Proof.
  induction items as [|c items IH]; intros m H; cbn [fold_left]; [exact H|].
  apply IH. now apply tally_step_NoDup.
Qed.

Lemma tallied_proto n : tallied "__proto__" n = None.
Proof. now destruct n. Qed.

(** One step of the [reduce]: the count of the type of the record goes up
    by one. *)
Lemma tally_step_own m (seen : string -> nat) c :
  (forall k, Obj.own m k = tallied k (seen k)) ->
  forall k, Obj.own (tally_step m c) k
            = tallied k (seen k + (if change_type c =? k then 1 else 0)).
Proof.
  intros Hm k. unfold tally_step.
  pose proof (Hm (change_type c)) as Hc.
  destruct (String.eqb_spec (change_type c) k) as [Ek|Ek].
  - subst k. rewrite Nat.add_1_r. rewrite Hc.
    destruct (seen (change_type c)) as [|n]; cbn [tallied] in *;
      (destruct (change_type c =? "__proto__") eqn:Ep;
       [exact Hc
       |destruct (Obj.inherited (change_type c));
        now rewrite own_set, String.eqb_refl]).
  - rewrite Nat.add_0_r.
    assert (Hset : forall v, Obj.own (Obj.set m (change_type c) v) k
                             = tallied k (seen k)).
    { intros v. rewrite own_set. apply String.eqb_neq in Ek. now rewrite Ek. }
    destruct (Obj.own m (change_type c)) as [[n|f n]|]; try apply Hset.
    destruct (change_type c =? "__proto__"); [apply Hm|].
    destruct (Obj.inherited (change_type c)); apply Hset.
Qed.

Lemma tally_own items : forall m (seen : string -> nat),
  (forall k, Obj.own m k = tallied k (seen k)) ->
  forall k, Obj.own (fold_left tally_step items m) k
            = tallied k (seen k + count_type k items).
Proof.
  induction items as [|c items IH]; intros m seen Hm k; cbn [fold_left].
  - unfold count_type. cbn. now rewrite Nat.add_0_r.
  - rewrite (IH _ (fun k => seen k + (if change_type c =? k then 1 else 0))
                (tally_step_own m seen c Hm)).
    f_equal. unfold count_type. cbn [filter].
    destruct (change_type c =? k); cbn [length]; lia.
Qed.

Lemma render_sections_badges groups names : forall i rendered sec,
  In sec (fst (render_sections groups names i rendered)) ->
  exists f, In f names /\
    section_badges sec
    = map section_badge
          (Obj.entries (fold_left tally_step (group_items groups f) [])).
Proof.
  induction names as [|f names IH]; intros i rendered sec; cbn [render_sections].
  - intros [].
  - specialize (IH (i + length (group_items groups f))
                   (rendered ++ group_items groups f) sec).
    destruct (render_sections groups names _ _) as [sections rendered'].
    cbn [fst] in *. intros [<-|H].
    + exists f. split; [now left | reflexivity].
    + destruct (IH H) as (f' & Hf' & E). exists f'. split; [now right | exact E].
Qed.

(** X13.  The badges in the header of a file section tally the change
    types of its records: a type has a badge exactly when a record of the
    section has it, each type has one badge, and the badge of a type that
    is not named like a member of [Object.prototype] carries the number of
    the section's records of that type.  A type named like such a member
    gets the text of the member followed by ones instead of a number, and
    the type [__proto__] gets no badge at all.  The badges of every
    rendered section are this tally of one of the groups. *)
Theorem section_badges_count_types :
  (forall items k v,
     In (k, v) (Obj.entries (fold_left tally_step items []))
     <-> tallied k (count_type k items) = Some v) /\
  (forall items,
     NoDup (map fst (Obj.entries (fold_left tally_step items [])))) /\
  (forall items c,
     In c items -> Obj.inherited (change_type c) = false ->
     In (change_type c, Count (count_type (change_type c) items))
        (Obj.entries (fold_left tally_step items []))) /\
  (forall groups names i rendered sec,
     In sec (fst (render_sections groups names i rendered)) ->
     exists f, In f names /\
       section_badges sec
       = map section_badge
             (Obj.entries (fold_left tally_step (group_items groups f) []))).
Proof.
  assert (Hown : forall items k,
             Obj.own (fold_left tally_step items []) k
             = tallied k (count_type k items)).
  { intros items k.
    exact (tally_own items [] (fun _ => 0%nat) (fun _ => eq_refl) k). }
  split; [|split; [|split]].
  - intros items k v. now rewrite entries_In, Hown.
  - intros items. rewrite entries_names.
    apply (Permutation_NoDup (Permutation_sym (keys_Permutation _))).
    apply tally_NoDup. constructor.
  - intros items c Hc Hinh. apply entries_In. rewrite Hown.
    assert (Hpos : (0 < count_type (change_type c) items)%nat).
    { unfold count_type.
      assert (Hin : In c (filter (fun c' => change_type c' =? change_type c) items)).
      { apply filter_In. split; [exact Hc | apply String.eqb_refl]. }
      destruct (filter _ items); [destruct Hin | cbn; lia]. }
    destruct (count_type (change_type c) items) as [|n]; [lia|].
    cbn [tallied]. rewrite Hinh.
    destruct (String.eqb_spec (change_type c) "__proto__") as [E|_];
      [|reflexivity].
    rewrite E in Hinh. discriminate.
  - apply render_sections_badges.
Qed.

(** The three records of the sample, taken as one section. *)
Lemma section_badges_count_types_witness :
  let c := mkChange "README.md" None None None None (Some 1%Z) "block"
                    (Some []) (Some ["x"]) "insert" in
  let items := [c; c; c] in
  In c items /\ Obj.inherited (change_type c) = false /\
  In ("insert", Count 3) (Obj.entries (fold_left tally_step items [])).
Proof.
  intros c items.
  assert (Hc : In c items) by now left.
  assert (Hinh : Obj.inherited (change_type c) = false) by reflexivity.
  split; [exact Hc|]. split; [exact Hinh|].
  exact (proj1 (proj2 (proj2 section_badges_count_types)) items c Hc Hinh).
Defined.

(** ** Escaped and raw holes of the markup *)

Lemma card_escaped_clean ch idx s :
  In s (card_escaped (renderChangeItem ch idx)) -> clean s.
Proof.
  unfold renderChangeItem.
  destruct ((context ch =? "kv") || (context ch =? "plist-kv")).
  - cbn [card_escaped]. intros [<-|[<-|[<-|[<-|[]]]]]; apply escapeHtml_clean.
  - destruct (change_type ch =? "file-deleted"); [intros []|].
    cbn [card_escaped]. intros H. apply in_app_or in H.
    pose proof (clean_block "- " (lines_or_empty (old_lines ch))) as Ho.
    pose proof (clean_block "+ " (lines_or_empty (new_lines ch))) as Hn.
    rewrite Forall_forall in Ho, Hn.
    destruct H as [H|H]; [apply Ho | apply Hn]; trivial; now apply clean_closed.
Qed.

Lemma card_badge_renderChangeItem ch idx :
  badge_text (card_badge (renderChangeItem ch idx)) = change_type ch.
Proof.
  unfold renderChangeItem.
  destruct ((context ch =? "kv") || (context ch =? "plist-kv")); [reflexivity|].
  now destruct (change_type ch =? "file-deleted").
Qed.

Lemma card_line_renderChangeItem ch idx l :
  card_line (renderChangeItem ch idx) = Some l -> l = line_label ch.
Proof.
  unfold renderChangeItem.
  destruct ((context ch =? "kv") || (context ch =? "plist-kv")); cbn [card_line].
  - now intros [= <-].
  - destruct (change_type ch =? "file-deleted"); cbn [card_line];
      [discriminate | now intros [= <-]].
Qed.

Lemma render_items_has items r : forall i,
  In r items -> exists j, In (renderChangeItem r j) (render_items items i).
Proof.
  induction items as [|x items IH]; intros i; [intros []|].
  cbn [render_items]. intros [-> | H].
  - exists i. now left.
  - destruct (IH (S i) H) as (j & Hj). exists j. now right.
Qed.

(** Every file name has its section. *)
Lemma render_sections_has groups names f : forall i rendered,
  In f names ->
  exists sec,
    In sec (fst (render_sections groups names i rendered)) /\
    section_badges sec
    = map section_badge
          (Obj.entries (fold_left tally_step (group_items groups f) [])) /\
    exists k, section_items sec = render_items (group_items groups f) k.
Proof.
  induction names as [|f' names IH]; intros i rendered; [intros []|].
  cbn [render_sections].
  specialize (IH (i + length (group_items groups f'))
                 (rendered ++ group_items groups f')).
  destruct (render_sections groups names _ _) as [sections rendered'].
  cbn [fst] in *. intros [-> | H].
  - eexists. split; [now left|]. split; [reflexivity|]. now exists i.
  - destruct (IH H) as (sec & Hsec & Hrest). exists sec. split; [now right | exact Hrest].
Qed.

(** A type the tally holds is the type of one of the records. *)
Lemma tally_key_of_record items k v :
  In (k, v) (Obj.entries (fold_left tally_step items [])) ->
  exists r, In r items /\ change_type r = k.
Proof.
  intros H. apply entries_In in H.
  rewrite (tally_own items [] (fun _ => 0%nat) (fun _ => eq_refl) k) in H.
  cbn [Nat.add] in H. unfold count_type in H.
  destruct (filter (fun c => change_type c =? k) items) as [|r l] eqn:E;
    [discriminate|].
  assert (Hr : In r (filter (fun c => change_type c =? k) items))
    by (rewrite E; now left).
  apply filter_In in Hr as [Hr Hk]. apply String.eqb_eq in Hk. now exists r.
Qed.

(** A type of a record, [__proto__] apart, is in the tally. *)
Lemma tally_has_type items r :
  In r items -> change_type r <> "__proto__" ->
  exists v, In (change_type r, v) (Obj.entries (fold_left tally_step items [])).
Proof.
  intros Hr Hproto.
  assert (Hown := tally_own items [] (fun _ => 0%nat) (fun _ => eq_refl)
                            (change_type r)).
  cbn [Nat.add] in Hown.
  assert (Hpos : count_type (change_type r) items <> 0%nat).
  { unfold count_type.
    assert (Hin : In r (filter (fun c => change_type c =? change_type r) items)).
    { apply filter_In. split; [exact Hr | apply String.eqb_refl]. }
    destruct (filter _ items); [destruct Hin | discriminate]. }
  destruct (count_type (change_type r) items) as [|n]; [now elim Hpos|].
  cbn [tallied] in Hown. apply String.eqb_neq in Hproto. rewrite Hproto in Hown.
  destruct (Obj.inherited (change_type r));
    eexists; apply entries_In; exact Hown.
Qed.

(** X2.  What the renderer passes through [escapeHtml] reaches the markup
    without an angle bracket: the property name, the old and new values,
    the lines of a block and the title of a section.  The holes it fills
    without [escapeHtml] are the line of a card, which is the text of the
    line number (digits, for a safe integer) or a dash, and [change_type],
    which is written as it is both in the type badge of the card and in
    the tally badge of the section header: every tally badge carries the
    change type of a record of the page, and every change type of the
    page other than [__proto__] is the text of a tally badge and of a type
    badge of a rendered section. *)
Theorem renderer_escapes_content_only :
  (forall ch idx,
     let c := renderChangeItem ch idx in
     (forall s, In s (card_escaped c) -> clean s) /\
     (forall l, card_line c = Some l ->
                l = line_label ch /\ (safe_lines ch -> clean l)) /\
     badge_text (card_badge c) = change_type ch)
  /\
  (forall changes st sec,
     In sec (files (snd (renderFiles changes st))) ->
     In sec (files st) \/
     (clean (section_title sec) /\
      (forall c s, In c (section_items sec) -> In s (card_escaped c) -> clean s) /\
      (forall b v, In (b, v) (section_badges sec) ->
                   exists r, In r changes /\ badge_text b = change_type r)))
  /\
  (forall changes st r,
     fst (renderFiles changes st) = Return tt ->
     In r changes -> change_type r <> "__proto__" ->
     exists sec b v c,
       In sec (files (snd (renderFiles changes st))) /\
       In (b, v) (section_badges sec) /\ badge_text b = change_type r /\
       In c (section_items sec) /\ badge_text (card_badge c) = change_type r).
Proof.
  split; [|split].
  - intros ch idx c. subst c. split; [intros s; apply card_escaped_clean|].
    split; [|apply card_badge_renderChangeItem].
    intros l Hl. apply card_line_renderChangeItem in Hl. subst l.
    split; [reflexivity | intros _; apply clean_line_label].
  - intros changes st sec.
    destruct (fst (renderFiles changes st)) as [[]|e] eqn:Eret.
    + pose proof (renderFiles_returned changes st Eret) as Hkeys.
      destruct (renderFiles_groups_sorted changes st Hkeys)
        as (groups & names & _ & _ & _ & _ & _ & Hgroup & ->).
      cbn [snd set_files files]. intros H. right.
      destruct (render_sections_In _ _ _ _ _ H) as [(f & ->) Hitems].
      split; [apply escapeHtml_clean|]. split.
      * intros c s Hc Hs. apply Hitems in Hc as (r & j & ->).
        now apply card_escaped_clean in Hs.
      * intros b v Hb.
        destruct (render_sections_badges _ _ _ _ _ H) as (f' & Hf' & Ebadges).
        rewrite Ebadges in Hb. apply in_map_iff in Hb as ([k v'] & Hkv & Hentry).
        apply tally_key_of_record in Hentry as (r & Hr & Hk).
        rewrite (Hgroup f' Hf') in Hr. apply filter_In in Hr as [Hr _].
        exists r. split; [exact Hr|].
        unfold section_badge in Hkv. cbn [fst snd] in Hkv.
        injection Hkv as <- _. cbn [badge_text]. now symmetry.
    + destruct (renderFiles_run changes st) as [(e' & _ & ->)|(groups & _ & E)].
      * cbn [snd]. now left.
      * rewrite E in Eret. discriminate.
  - intros changes st r Hret Hr Hproto.
    pose proof (renderFiles_returned changes st Hret) as Hkeys.
    destruct (renderFiles_groups_sorted changes st Hkeys)
      as (groups & names & _ & _ & _ & _ & Hnames & Hgroup & ->).
    cbn [snd set_files files].
    assert (Hf : In (file r) names) by (apply Hnames; now exists r).
    destruct (render_sections_has groups names (file r) 0%nat [] Hf)
      as (sec & Hsec & Ebadges & k & Eitems).
    assert (Hin : In r (group_items groups (file r))).
    { rewrite (Hgroup _ Hf). apply filter_In. split; [exact Hr | apply String.eqb_refl]. }
    destruct (tally_has_type _ r Hin Hproto) as (v & Hv).
    destruct (render_items_has _ r k Hin) as (j & Hj).
    exists sec, (mkBadge (badgeForType (change_type r)) (change_type r)), v,
           (renderChangeItem r j).
    split; [exact Hsec|]. split.
    { rewrite Ebadges. apply in_map_iff. now exists (change_type r, v). }
    split; [reflexivity|]. split; [now rewrite Eitems|].
    apply card_badge_renderChangeItem.
Qed.

(** A record whose change type holds markup: it is on the page as it is. *)
Lemma renderer_escapes_content_only_witness :
  let r := mkChange "index.html" None None None None (Some 1%Z) "block"
                    None (Some ["x"]) "<b>new</b>" in
  fst (renderFiles [r] initial) = Return tt /\
  In r [r] /\ change_type r <> "__proto__" /\ occurs "<" (change_type r) /\
  exists sec b v c,
    In sec (files (snd (renderFiles [r] initial))) /\
    In (b, v) (section_badges sec) /\ badge_text b = change_type r /\
    In c (section_items sec) /\ badge_text (card_badge c) = change_type r.
Proof.
  intros r.
  assert (Hret : fst (renderFiles [r] initial) = Return tt) by reflexivity.
  assert (Hr : In r [r]) by now left.
  assert (Hproto : change_type r <> "__proto__") by discriminate.
  split; [exact Hret|]. split; [exact Hr|]. split; [exact Hproto|].
  split; [now left|].
  exact (proj2 (proj2 renderer_escapes_content_only) [r] initial r Hret Hr Hproto).
Defined.
